(** * Markov chain intraday prediction system

    A shallow embedding of [markov_trading_system.py]: the movement
    encoder, the transition-model builder, and the predictor of [main]
    (date selection, pattern matching, confidence scoring, signal strength
    and momentum).

    Modelling choices.
    - Prices and probabilities are Python/numpy floats in the source.  They
      are embedded as rationals [Q]: the comparison of two finite floats is
      the comparison of the rationals they denote, and the arithmetic claims
      are stated over exact rational arithmetic.
    - Python dictionaries ([dict], [defaultdict], [Counter]) are finite maps
      [gmap]; a missing [Counter] key counts as [0], a missing
      [defaultdict(Counter)] key as the empty counter.
    - [for i in range(a, b)] loops are left folds over [range a b] that
      thread the mutated variables.
    - [sys.exit(1)] and uncaught exceptions are values of [Exit], threaded
      through a small error monad. *)

From Stdlib Require Import QArith Qminmax Lqa Lia.
From stdpp Require Import base decidable countable list gmap fin_maps sorting.

Local Open Scope nat_scope.

(** ** Movement symbols and patterns *)

Inductive Movement : Set := UP | DOWN | FLAT.

#[global] Instance Movement_eq_dec : EqDecision Movement.
Proof. solve_decision. Defined.

Definition Movement_to_nat (m : Movement) : nat :=
  match m with UP => 0 | DOWN => 1 | FLAT => 2 end.

Definition Movement_of_nat (n : nat) : Movement :=
  match n with 0 => UP | 1 => DOWN | _ => FLAT end.

#[global] Instance Movement_countable : Countable Movement.
Proof.
  apply (inj_countable' Movement_to_nat Movement_of_nat).
  intros []; reflexivity.
Defined.

(** The lookback window: a Python 3-tuple of movement strings. *)
Abbreviation Pattern := (Movement * Movement * Movement)%type.

(** ** Python helpers *)

(** [range(lo, hi)] *)
Definition range (lo hi : nat) : list nat := seq lo (hi - lo).

(** Float comparisons [a > b] and [a < b]. *)
Definition Qgtb (a b : Q) : bool :=
  match Qcompare a b with Gt => true | _ => false end.

Definition Qltb (a b : Q) : bool :=
  match Qcompare a b with Lt => true | _ => false end.

(** [closes[i]]; every use below has [i] within bounds. *)
Definition at_index (closes : list Q) (i : nat) : Q := nth i closes 0%Q.

(** [movements[i]]; every use below has [i] within bounds. *)
Definition sym_at (movements : list Movement) (i : nat) : Movement :=
  nth i movements FLAT.

(** ** Movement encoder ([build_markov_model], the first loop) *)

(** The body of the loop: the symbol appended at index [i]. *)
Definition movement_of (closes : list Q) (i : nat) : Movement :=
  if Qgtb (at_index closes i) (at_index closes (i - 1)) then UP
  else if Qltb (at_index closes i) (at_index closes (i - 1)) then DOWN
  else FLAT.

(** [movements = []; for i in range(1, total_rows): movements.append(...)] *)
Definition encode_movements (closes : list Q) : list Movement :=
  let total_rows := length closes in
  fold_left (fun movements i => movements ++ [movement_of closes i])
            (range 1 total_rows) [].

(** ** Markov model builder ([build_markov_model]) *)

(** [counter[next_move] += 1] on a [Counter]: a missing key reads as 0. *)
Definition counter_incr (next_move : Movement) (counter : gmap Movement nat)
  : gmap Movement nat :=
  <[next_move := S (default 0 (counter !! next_move))]> counter.

(** [pattern_counts[pattern][next_move] += 1] on a [defaultdict(Counter)]:
    a missing pattern is first bound to the empty counter. *)
Definition record_transition (pattern_counts : gmap Pattern (gmap Movement nat))
    (pattern : Pattern) (next_move : Movement)
  : gmap Pattern (gmap Movement nat) :=
  <[pattern := counter_incr next_move (default ∅ (pattern_counts !! pattern))]>
    pattern_counts.

(** [(movements[i-3], movements[i-2], movements[i-1])] *)
Definition pattern_before (movements : list Movement) (i : nat) : Pattern :=
  (sym_at movements (i - 3), sym_at movements (i - 2), sym_at movements (i - 1)).

(** [for i in range(3, len(movements)): ...] *)
Definition count_patterns (movements : list Movement)
  : gmap Pattern (gmap Movement nat) :=
  fold_left
    (fun pattern_counts i =>
       record_transition pattern_counts (pattern_before movements i)
                         (sym_at movements i))
    (range 3 (length movements)) ∅.

(** [sum(counter.values())] *)
Definition sum_values (counter : gmap Movement nat) : nat :=
  map_fold (fun _ n acc => n + acc) 0 counter.

(** Python true division of two ints, over the rationals. *)
Definition int_div (n total : nat) : Q :=
  (inject_Z (Z.of_nat n) / inject_Z (Z.of_nat total))%Q.

(** The inner loop of the normalisation: every stored count divided by the
    pattern's total. *)
Definition to_distribution (counter : gmap Movement nat) : gmap Movement Q :=
  let total := sum_values counter in
  (fun n => int_div n total) <$> counter.

(** [for pattern in pattern_counts: transition_matrix[pattern] = {...}] *)
Definition normalise (pattern_counts : gmap Pattern (gmap Movement nat))
  : gmap Pattern (gmap Movement Q) :=
  to_distribution <$> pattern_counts.

(** [build_markov_model(df)], as a function of the [Close] column.
    [None] stands for the [(None, None)] returned on too few rows. *)
Definition build_markov_model (closes : list Q)
  : option (gmap Pattern (gmap Movement Q) * gmap Pattern (gmap Movement nat)) :=
  let total_rows := length closes in
  if total_rows <? 4 then None
  else
    let movements := encode_movements closes in
    let pattern_counts := count_patterns movements in
    Some (normalise pattern_counts, pattern_counts).

(** ** The run of [main] *)

(** One candle of the loaded table; [TradingDay] is the calendar date of the
    timestamp, as a day number. *)
Record Candle : Type := mkCandle {
  TradingDay : Z;
  Close : Q;
  High : Q;
  Low : Q
}.

(** The ways a run terminates early: the [sys.exit(1)] sites of [main] in
    source order, and the exceptions that a division, [list.index] or an
    index could raise. *)
Inductive Exit : Set :=
| ModelTrainingFailed
| DateNotInDataset
| NoPreviousDay
| InsufficientIntradayData
| NoMatchingPatterns
| ZeroDivisionError
| ValueError
| IndexError.

Definition result (A : Type) : Type := Exit + A.

Definition abort {A} (e : Exit) : result A := inl e.

#[global] Instance result_ret : MRet result := fun A a => inr a.

#[global] Instance result_bind : MBind result := fun A B k r =>
  match r with
  | inl e => inl e
  | inr a => k a
  end.

(** *** Training step *)

(** What [main] keeps from training. *)
Record Training : Type := mkTraining {
  transition_matrix : gmap Pattern (gmap Movement Q);
  pattern_counts : gmap Pattern (gmap Movement nat);
  unique_patterns : nat;
  avg_frequency : Q
}.

(** [sum(sum(pattern_counts[p].values()) for p in pattern_counts)] *)
Definition total_observations (pattern_counts : gmap Pattern (gmap Movement nat))
  : nat :=
  map_fold (fun _ counter acc => sum_values counter + acc) 0 pattern_counts.

(** The training block of [main]: abort when the builder returned [None],
    otherwise record the statistics; the average is [0] for an empty model. *)
Definition train (df : list Candle) : result Training :=
  match build_markov_model (Close <$> df) with
  | None => abort ModelTrainingFailed
  | Some (tm, pc) =>
      let unique := size tm in
      let avg := if 0 <? unique then int_div (total_observations pc) unique
                 else 0%Q in
      mret (mkTraining tm pc unique avg)
  end.

(** *** Date selection *)

(** [Series.unique()]: the distinct values in order of first appearance. *)
Fixpoint unique (days : list Z) : list Z :=
  match days with
  | [] => []
  | d :: rest => d :: filter (fun d' => d' ≠ d) (unique rest)
  end.

(** [available_dates = sorted(df['TradingDay'].unique())] *)
Definition available_dates (df : list Candle) : list Z :=
  merge_sort Z.le (unique (TradingDay <$> df)).

(** [list.index(x)]: position of the first occurrence; [None] stands for the
    [ValueError] raised when there is none. *)
Fixpoint index_of (x : Z) (l : list Z) : option nat :=
  match l with
  | [] => None
  | y :: rest => if decide (y = x) then Some 0 else S <$> index_of x rest
  end.

(** The date checks of [main] and the choice of [previous_day]. *)
Definition select_previous_day (available_dates : list Z) (prediction_date : Z)
  : result Z :=
  if decide (prediction_date ∈ available_dates) then
    match index_of prediction_date available_dates with
    | None => abort ValueError
    | Some pred_index =>
        if pred_index =? 0 then abort NoPreviousDay
        else
          match available_dates !! (pred_index - 1) with
          | Some previous_day => mret previous_day
          | None => abort IndexError
          end
    end
  else abort DateNotInDataset.

(** *** Re-encoding the selected day *)

(** [prev_day_df['Movement'] = 'FLAT'] followed by the loop that overwrites
    row [i] with UP or DOWN. *)
Definition day_movements (closes : list Q) : list Movement :=
  let n := length closes in
  fold_left
    (fun column i =>
       if Qgtb (at_index closes i) (at_index closes (i - 1)) then <[i := UP]> column
       else if Qltb (at_index closes i) (at_index closes (i - 1)) then <[i := DOWN]> column
       else column)
    (range 1 n) (replicate n FLAT).

(** [patterns_found]: one window per index from 2 onward. *)
Definition find_patterns (movement : list Movement) : list Pattern :=
  fold_left
    (fun patterns_found i =>
       patterns_found ++
         [(sym_at movement (i - 2), sym_at movement (i - 1), sym_at movement i)])
    (range 2 (length movement)) [].

(** *** Pattern matching *)

(** The four accumulators of the matching loop. *)
Record Totals : Type := mkTotals {
  total_up : Q;
  total_down : Q;
  total_flat : Q;
  matched_patterns : nat
}.

(** [probs.get(move, 0)] *)
Definition get_prob (probs : gmap Movement Q) (move : Movement) : Q :=
  default 0%Q (probs !! move).

(** One iteration of [for pattern in patterns_found]. *)
Definition match_step (tm : gmap Pattern (gmap Movement Q)) (acc : Totals)
    (pattern : Pattern) : Totals :=
  match tm !! pattern with
  | Some probs =>
      mkTotals (total_up acc + get_prob probs UP)%Q
               (total_down acc + get_prob probs DOWN)%Q
               (total_flat acc + get_prob probs FLAT)%Q
               (matched_patterns acc + 1)
  | None => acc
  end.

Definition match_patterns (tm : gmap Pattern (gmap Movement Q))
    (patterns_found : list Pattern) : Totals :=
  fold_left (match_step tm) patterns_found (mkTotals 0 0 0 0).

(** *** Confidence scoring *)

(** Float division: raises on a zero divisor. *)
Definition py_div (a b : Q) : result Q :=
  if Qeq_bool b 0 then abort ZeroDivisionError else mret (a / b)%Q.

Record Confidence : Type := mkConfidence {
  confidence_up : Q;
  confidence_down : Q;
  confidence_flat : Q
}.

(** The zero-match check and the normalisation to percentages. *)
Definition confidences (t : Totals) : result Confidence :=
  if matched_patterns t =? 0 then abort NoMatchingPatterns
  else
    let total := (total_up t + total_down t + total_flat t)%Q in
    up ← py_div (total_up t) total;
    down ← py_div (total_down t) total;
    flat ← py_div (total_flat t) total;
    mret (mkConfidence (up * 100) (down * 100) (flat * 100))%Q.

(** Python's [max(a, b, c)]: the running maximum is replaced only by a
    strictly greater item. *)
Definition py_max3 (a b c : Q) : Q :=
  let m := if Qgtb b a then b else a in
  if Qgtb c m then c else m.

Inductive Signal : Set := BULLISH | BEARISH | NEUTRAL.

(** The equality chain that picks the predicted class and its confidence. *)
Definition classify (c : Confidence) : Signal * Q :=
  let max_confidence :=
    py_max3 (confidence_up c) (confidence_down c) (confidence_flat c) in
  if Qeq_bool max_confidence (confidence_up c) then (BULLISH, confidence_up c)
  else if Qeq_bool max_confidence (confidence_down c) then (BEARISH, confidence_down c)
  else (NEUTRAL, confidence_flat c).

Inductive Tier : Set := Strong | Moderate | Weak.

(** [((max_confidence - 33.33) / 66.67) * 100] *)
Definition strength_score (max_confidence : Q) : Q :=
  ((max_confidence - 33.33) / 66.67 * 100)%Q.

Definition signal_strength (score : Q) : Tier :=
  if Qgtb score 70 then Strong
  else if Qgtb score 40 then Moderate
  else Weak.

(** *** Momentum *)

(** [Series.tail(5).tolist()] *)
Definition tail5 (movement : list Movement) : list Movement :=
  drop (length movement - 5) movement.

(** The loop [for i in range(len(last_5)-1, 0, -1)] with its [break],
    over the indices still to visit. *)
Fixpoint momentum_loop (last_5 : list Movement) (indices : list nat)
    (consecutive : nat) : nat :=
  match indices with
  | [] => consecutive
  | i :: rest =>
      if bool_decide (sym_at last_5 i = sym_at last_5 (i - 1))
         && bool_decide (sym_at last_5 i ≠ FLAT)
      then momentum_loop last_5 rest (consecutive + 1)
      else consecutive
  end.

Definition consecutive_run (last_5 : list Movement) : nat :=
  momentum_loop last_5 (rev (range 1 (length last_5))) 1.

Inductive MomentumType : Set := Run (m : Movement) | Mixed.

(** [last_5[-1] if consecutive > 1 else "Mixed"] *)
Definition momentum_type (last_5 : list Movement) (consecutive : nat)
  : MomentumType :=
  if 1 <? consecutive then Run (sym_at last_5 (length last_5 - 1)) else Mixed.

Definition momentum (consecutive : nat) : Tier :=
  if 4 <=? consecutive then Strong
  else if 2 <=? consecutive then Moderate
  else Weak.

(** *** Volatility and action *)

Definition sumQ (l : list Q) : Q := foldr Qplus 0%Q l.

(** [Series.mean()] *)
Definition mean (l : list Q) : Q := (sumQ l / inject_Z (Z.of_nat (length l)))%Q.

Inductive Volatility : Set := VolHigh | VolMedium | VolLow.

Definition volatility (prev_day_df : list Candle) : Q * Volatility :=
  let atr := mean ((fun c => High c - Low c)%Q <$> prev_day_df) in
  let mean_close := mean (Close <$> prev_day_df) in
  (atr,
   if Qgtb atr (mean_close * 0.02) then VolHigh
   else if Qgtb atr (mean_close * 0.01) then VolMedium
   else VolLow).

Inductive Action : Set := BUY_LONG | SELL_SHORT | HOLD_WAIT.

Definition recommend (prediction : Signal) (strength : Tier) : Action :=
  match prediction, strength with
  | BULLISH, (Strong | Moderate) => BUY_LONG
  | BEARISH, (Strong | Moderate) => SELL_SHORT
  | _, _ => HOLD_WAIT
  end.

(** *** The report *)

Record Report : Type := mkReport {
  rep_previous_day : Z;
  rep_training : Training;
  rep_prediction : Signal;
  rep_confidence : Q;
  rep_confidences : Confidence;
  rep_strength_score : Q;
  rep_signal_strength : Tier;
  rep_consecutive : nat;
  rep_momentum_type : MomentumType;
  rep_momentum : Tier;
  rep_atr : Q;
  rep_volatility : Volatility;
  rep_patterns_analyzed : nat;
  rep_patterns_matched : nat;
  rep_match_quality : Q;
  rep_action : Action
}.

(** [matched_patterns/len(patterns_found)*100] *)
Definition match_quality (matched analyzed : nat) : result Q :=
  q ← py_div (inject_Z (Z.of_nat matched)) (inject_Z (Z.of_nat analyzed));
  mret (q * 100)%Q.

(** Everything [main] computes from the selected day. *)
Definition predict (tr : Training) (previous_day : Z) (prev_day_df : list Candle)
  : result Report :=
  let num_candles := length prev_day_df in
  if num_candles <? 10 then abort InsufficientIntradayData
  else
    let movement := day_movements (Close <$> prev_day_df) in
    let patterns_found := find_patterns movement in
    let totals := match_patterns (transition_matrix tr) patterns_found in
    conf ← confidences totals;
    let '(prediction, confidence) := classify conf in
    let max_confidence :=
      py_max3 (confidence_up conf) (confidence_down conf) (confidence_flat conf) in
    let score := strength_score max_confidence in
    let strength := signal_strength score in
    let last_5 := tail5 movement in
    let consecutive := consecutive_run last_5 in
    let '(atr, vol) := volatility prev_day_df in
    quality ← match_quality (matched_patterns totals) (length patterns_found);
    mret (mkReport previous_day tr prediction confidence conf score strength
            consecutive (momentum_type last_5 consecutive) (momentum consecutive)
            atr vol (length patterns_found) (matched_patterns totals) quality
            (recommend prediction strength)).

(** [main], from the loaded table and the parsed prediction date on. *)
Definition main (df : list Candle) (prediction_date : Z) : result Report :=
  tr ← train df;
  previous_day ← select_previous_day (available_dates df) prediction_date;
  let prev_day_df := filter (fun c => TradingDay c = previous_day) df in
  predict tr previous_day prev_day_df.

(** ** Notions used in the statements *)

(** Reading [pattern_counts[pattern][move]] without inserting: the number of
    times [move] was recorded after [pattern]. *)
Definition recorded (pattern_counts : gmap Pattern (gmap Movement nat))
    (pattern : Pattern) (move : Movement) : nat :=
  default 0 (default ∅ (pattern_counts !! pattern) !! move).

(** The loop indices at which [pattern] is observed with an outcome. *)
Definition observed_at (movements : list Movement) (pattern : Pattern)
  : list nat :=
  filter (fun i => pattern_before movements i = pattern)
         (range 3 (length movements)).

(** The end positions of every window equal to [pattern], the trailing
    window that has no outcome included. *)
Definition window_positions (movements : list Movement) (pattern : Pattern)
  : list nat :=
  filter (fun i => pattern_before movements i = pattern)
         (range 3 (length movements + 1)).

(** [sum(probs.values())] over the rationals. *)
Definition sum_probs (probs : gmap Movement Q) : Q :=
  map_fold (fun _ q acc => (q + acc)%Q) 0%Q probs.

(** Every counter of the table is non-empty and holds positive counts. *)
Definition well_counted (pattern_counts : gmap Pattern (gmap Movement nat))
  : Prop :=
  forall pattern counter,
    pattern_counts !! pattern = Some counter ->
    counter ≠ ∅ /\ forall move n, counter !! move = Some n -> 0 < n.

(** What the predictor relies on: each stored value is non-negative and the
    three reads [probs.get(move, 0)] add up to one. *)
Definition distribution (probs : gmap Movement Q) : Prop :=
  (forall m, 0 <= get_prob probs m)%Q /\
  (get_prob probs UP + get_prob probs DOWN + get_prob probs FLAT == 1)%Q.

(** Every distribution stored in the model is one in the sense above. *)
Definition trained (tm : gmap Pattern (gmap Movement Q)) : Prop :=
  forall p probs, tm !! p = Some probs -> distribution probs.

(** The invariant of the matching loop: the three masses are non-negative
    and add up to the number of matched patterns. *)
Definition mass_balanced (t : Totals) : Prop :=
  (0 <= total_up t /\ 0 <= total_down t /\ 0 <= total_flat t /\
   total_up t + total_down t + total_flat t ==
     inject_Z (Z.of_nat (matched_patterns t)))%Q.

(** ** Notions used in the further properties *)

(** The number of leading elements of a list that equal [x]. *)
Fixpoint leading (x : Movement) (l : list Movement) : nat :=
  match l with
  | y :: rest => if decide (y = x) then S (leading x rest) else 0
  | [] => 0
  end.

(** The number of trailing symbols equal to the last one. *)
Definition trailing_run (l : list Movement) : nat :=
  match rev l with
  | x :: rest => S (leading x rest)
  | [] => 0
  end.

(** The steps the momentum loop takes on a reversed list: it compares each
    symbol with the one before it and stops at the first difference or
    FLAT. *)
Fixpoint run_steps (reversed : list Movement) : nat :=
  match reversed with
  | a :: (b :: _) as rest =>
      if bool_decide (a = b) && bool_decide (a ≠ FLAT) then S (run_steps rest)
      else 0
  | _ => 0
  end.

(** How each field of a report is obtained from the training result, the
    selected day and its candles. *)
Definition reports (tr : Training) (previous_day : Z)
    (prev_day_df : list Candle) (r : Report) : Prop :=
  let movement := day_movements (Close <$> prev_day_df) in
  let patterns_found := find_patterns movement in
  let totals := match_patterns (transition_matrix tr) patterns_found in
  let conf := rep_confidences r in
  let max_confidence :=
    py_max3 (confidence_up conf) (confidence_down conf) (confidence_flat conf) in
  rep_previous_day r = previous_day /\
  rep_training r = tr /\
  confidences totals = inr conf /\
  (rep_prediction r, rep_confidence r) = classify conf /\
  rep_strength_score r = strength_score max_confidence /\
  rep_signal_strength r = signal_strength (rep_strength_score r) /\
  rep_consecutive r = consecutive_run (tail5 movement) /\
  rep_momentum_type r = momentum_type (tail5 movement) (rep_consecutive r) /\
  rep_momentum r = momentum (rep_consecutive r) /\
  (rep_atr r, rep_volatility r) = volatility prev_day_df /\
  rep_patterns_analyzed r = length patterns_found /\
  rep_patterns_matched r = matched_patterns totals /\
  match_quality (rep_patterns_matched r) (rep_patterns_analyzed r) =
    inr (rep_match_quality r) /\
  rep_action r = recommend (rep_prediction r) (rep_signal_strength r).

(** ** Example data *)

(** A table of two trading days: ten candles on day 1 and one on day 2. *)
Definition example_table : list Candle :=
  ((fun close => mkCandle 1 close (close + 1) (close - 1))
     <$> [1; 2; 3; 2; 3; 4; 3; 4; 5; 6]%Q)
  ++ [mkCandle 2 7 8 6].

(** * Properties *)

(** ** Generic facts about the loops *)

Section Loops.
Context {A : Type}.

(** A loop that only appends computes a map over its index range. *)
Lemma fold_left_append (f : nat -> A) (indices : list nat) (init : list A) :
  fold_left (fun acc i => acc ++ [f i]) indices init = init ++ (f <$> indices).
Proof.
  revert init. induction indices as [|i indices IH]; intros init; simpl.
  - by rewrite app_nil_r.
  - rewrite IH. by rewrite <- app_assoc.
Qed.

Lemma lookup_fmap_range (f : nat -> A) (lo hi i : nat) :
  lo + i < hi -> (f <$> range lo hi) !! i = Some (f (lo + i)).
Proof.
  intros Hi. unfold range. rewrite list_lookup_fmap.
  rewrite lookup_seq_lt by lia. reflexivity.
Qed.

Lemma length_fmap_range (f : nat -> A) (lo hi : nat) :
  length (f <$> range lo hi) = hi - lo.
Proof. unfold range. by rewrite length_fmap, length_seq. Qed.
End Loops.

Lemma Qgtb_spec (a b : Q) : Qgtb a b = true <-> (b < a)%Q.
Proof.
  unfold Qgtb. rewrite Qgt_alt.
  destruct (Qcompare a b); split; congruence.
Qed.

Lemma Qltb_spec (a b : Q) : Qltb a b = true <-> (a < b)%Q.
Proof.
  unfold Qltb. rewrite Qlt_alt.
  destruct (Qcompare a b); split; congruence.
Qed.

Lemma at_index_lookup (closes : list Q) (i : nat) (a : Q) :
  closes !! i = Some a -> at_index closes i = a.
Proof. intros H. unfold at_index. rewrite nth_lookup, H. reflexivity. Qed.

Lemma sym_at_lookup (movements : list Movement) (i : nat) (m : Movement) :
  movements !! i = Some m -> sym_at movements i = m.
Proof. intros H. unfold sym_at. rewrite nth_lookup, H. reflexivity. Qed.

(** ** The movement encoder *)

Lemma encode_movements_fmap (closes : list Q) :
  encode_movements closes = movement_of closes <$> range 1 (length closes).
Proof. unfold encode_movements. by rewrite fold_left_append. Qed.

Lemma length_encode_movements (closes : list Q) :
  length (encode_movements closes) = length closes - 1.
Proof. rewrite encode_movements_fmap. apply length_fmap_range. Qed.

Lemma lookup_encode_movements (closes : list Q) (i : nat) :
  i < length closes - 1 ->
  encode_movements closes !! i = Some (movement_of closes (S i)).
Proof.
  intros Hi. rewrite encode_movements_fmap.
  rewrite lookup_fmap_range by lia. reflexivity.
Qed.

Lemma movement_of_cases (closes : list Q) (i : nat) (a b : Q) :
  closes !! i = Some a -> closes !! (i + 1) = Some b ->
  (movement_of closes (S i) = UP <-> (a < b)%Q) /\
  (movement_of closes (S i) = DOWN <-> (b < a)%Q) /\
  (movement_of closes (S i) = FLAT <-> (a == b)%Q).
Proof.
  intros Ha Hb. unfold movement_of.
  replace (S i - 1) with i by lia.
  replace (S i) with (i + 1) by lia.
  rewrite (at_index_lookup _ _ _ Ha), (at_index_lookup _ _ _ Hb).
  destruct (Qgtb b a) eqn:Hgt.
  - apply Qgtb_spec in Hgt. repeat split; intros H; try done.
    + exfalso. eapply Qlt_irrefl, Qlt_trans; eauto.
    + exfalso. rewrite H in Hgt. by apply Qlt_irrefl in Hgt.
  - assert (Hngt : ~ (a < b)%Q) by (rewrite <- Qgtb_spec; congruence).
    destruct (Qltb b a) eqn:Hlt.
    + apply Qltb_spec in Hlt. repeat split; intros H; try done.
      exfalso. rewrite H in Hlt. by apply Qlt_irrefl in Hlt.
    + assert (Hnlt : ~ (b < a)%Q) by (rewrite <- Qltb_spec; congruence).
      repeat split; intros H; try done.
      apply Qle_antisym; by apply Qnot_lt_le.
Qed.

(** C1: for a close-price sequence of length N >= 2 the encoder yields
    exactly N-1 symbols; the symbol at index i is UP exactly when
    close[i+1] > close[i], DOWN exactly when close[i+1] < close[i], and FLAT
    exactly in the remaining case, the exact tie. *)
Theorem movement_encoder_spec (closes : list Q) :
  2 <= length closes ->
  length (encode_movements closes) = length closes - 1 /\
  forall i a b,
    closes !! i = Some a -> closes !! (i + 1) = Some b ->
    exists symbol,
      encode_movements closes !! i = Some symbol /\
      (symbol = UP <-> (b > a)%Q) /\
      (symbol = DOWN <-> (b < a)%Q) /\
      (symbol = FLAT <-> ~ (b > a)%Q /\ ~ (b < a)%Q).
Proof.
  intros HN. split; [apply length_encode_movements|].
  intros i a b Ha Hb.
  assert (Hi : i + 1 < length closes) by (eapply lookup_lt_Some; eauto).
  exists (movement_of closes (S i)).
  split; [apply lookup_encode_movements; lia|].
  destruct (movement_of_cases closes i a b Ha Hb) as (Hup & Hdown & Hflat).
  split; [exact Hup|]. split; [exact Hdown|].
  rewrite Hflat. split.
  - intros Heq. split; rewrite Heq; apply Qlt_irrefl.
  - intros [H1 H2]. apply Qle_antisym; by apply Qnot_lt_le.
Qed.

Lemma movement_encoder_spec_witness :
  let closes := [1; 2; 2; 1]%Q in
  length (encode_movements closes) = length closes - 1 /\
  forall i a b,
    closes !! i = Some a -> closes !! (i + 1) = Some b ->
    exists symbol,
      encode_movements closes !! i = Some symbol /\
      (symbol = UP <-> (b > a)%Q) /\
      (symbol = DOWN <-> (b < a)%Q) /\
      (symbol = FLAT <-> ~ (b > a)%Q /\ ~ (b < a)%Q).
Proof. apply (movement_encoder_spec [1; 2; 2; 1]%Q). simpl. lia. Defined.

(** ** The pattern table *)

Section Invariants.
Context {St Ix : Type} (step : St -> Ix -> St) (P : St -> Prop).

(** A property kept by every iteration holds when the loop ends. *)
Lemma fold_left_invariant (indices : list Ix) (init : St) :
  P init -> (forall acc i, P acc -> P (step acc i)) ->
  P (fold_left step indices init).
Proof.
  intros Hinit Hstep. revert init Hinit.
  induction indices as [|i indices IH]; intros init Hinit; simpl; auto.
Qed.
End Invariants.

Lemma recorded_record_transition pc p' m' p m :
  recorded (record_transition pc p' m') p m =
  recorded pc p m + (if decide (p = p' /\ m = m') then 1 else 0).
Proof.
  unfold recorded, record_transition, counter_incr.
  destruct (decide (p = p')) as [->|Hp].
  - rewrite lookup_insert_eq. simpl.
    destruct (decide (m = m')) as [->|Hm].
    + rewrite lookup_insert_eq. simpl.
      rewrite decide_True by done. lia.
    + rewrite lookup_insert_ne by done.
      rewrite decide_False by tauto. lia.
  - rewrite lookup_insert_ne by done.
    rewrite decide_False by tauto. lia.
Qed.

Lemma well_counted_empty : well_counted ∅.
Proof. intros p c H. by rewrite lookup_empty in H. Qed.

Lemma well_counted_record_transition pc p m :
  well_counted pc -> well_counted (record_transition pc p m).
Proof.
  intros Hwf p' c. unfold record_transition.
  destruct (decide (p = p')) as [<-|Hp].
  - rewrite lookup_insert_eq. intros [= <-]. unfold counter_incr. split.
    + apply insert_non_empty.
    + intros m' n. destruct (decide (m = m')) as [<-|Hm].
      * rewrite lookup_insert_eq. intros [= <-]. lia.
      * rewrite lookup_insert_ne by done.
        destruct (pc !! p) as [c0|] eqn:Hc0; simpl.
        -- apply (Hwf p c0 Hc0).
        -- by rewrite lookup_empty.
  - rewrite lookup_insert_ne by done. apply Hwf.
Qed.

Lemma well_counted_count_patterns movements :
  well_counted (count_patterns movements).
Proof.
  unfold count_patterns. apply fold_left_invariant.
  - apply well_counted_empty.
  - intros acc i. apply well_counted_record_transition.
Qed.

(** The table counts, for each pattern and outcome, the loop indices that
    show them. *)
Lemma recorded_fold movements (indices : list nat) pc p m :
  recorded
    (fold_left (fun pc i => record_transition pc (pattern_before movements i)
                                              (sym_at movements i))
               indices pc) p m =
  recorded pc p m +
  length (filter (fun i => pattern_before movements i = p /\ sym_at movements i = m)
                 indices).
Proof.
  revert pc. induction indices as [|i indices IH]; intros pc; simpl.
  - lia.
  - rewrite IH, recorded_record_transition, filter_cons.
    destruct (decide (p = pattern_before movements i /\ m = sym_at movements i))
      as [[-> ->]|Hn].
    + rewrite decide_True by done. simpl. lia.
    + rewrite decide_False by (intros [<- <-]; tauto). lia.
Qed.

Lemma recorded_count_patterns movements p m :
  recorded (count_patterns movements) p m =
  length (filter (fun i => pattern_before movements i = p /\ sym_at movements i = m)
                 (range 3 (length movements))).
Proof.
  unfold count_patterns. rewrite recorded_fold.
  unfold recorded. rewrite lookup_empty. simpl. by rewrite lookup_empty.
Qed.

Lemma recorded_None pc p m : pc !! p = None -> recorded pc p m = 0.
Proof. intros H. unfold recorded. rewrite H. simpl. by rewrite lookup_empty. Qed.

Lemma recorded_Some pc p c m : pc !! p = Some c -> recorded pc p m = default 0 (c !! m).
Proof. intros H. unfold recorded. by rewrite H. Qed.

Lemma elem_of_range (i lo hi : nat) : i ∈ range lo hi <-> lo <= i < hi.
Proof. unfold range. rewrite elem_of_seq. lia. Qed.

(** A pattern is a key of the table exactly when the loop observed it. *)
Lemma count_patterns_is_Some movements p :
  is_Some (count_patterns movements !! p) <->
  exists i, 3 <= i < length movements /\ pattern_before movements i = p.
Proof.
  split.
  - intros [c Hc].
    destruct (well_counted_count_patterns movements p c Hc) as [Hne Hpos].
    destruct (map_choose c Hne) as (m & n & Hm).
    pose proof (Hpos m n Hm) as Hn.
    pose proof (recorded_count_patterns movements p m) as Hrec.
    rewrite (recorded_Some _ _ _ _ Hc), Hm in Hrec. simpl in Hrec.
    destruct (filter _ _) as [|i l] eqn:Hf; [simpl in Hrec; lia|].
    assert (Hin : i ∈ filter
              (fun i => pattern_before movements i = p /\ sym_at movements i = m)
              (range 3 (length movements))) by (rewrite Hf; left).
    apply list_elem_of_filter in Hin as [[Hp _] Hr].
    apply elem_of_range in Hr. eauto.
  - intros (i & Hi & Hp).
    destruct (count_patterns movements !! p) as [c|] eqn:Hc; [eauto|].
    exfalso.
    pose proof (recorded_count_patterns movements p (sym_at movements i)) as Hrec.
    rewrite (recorded_None _ _ _ Hc) in Hrec.
    assert (Hin : i ∈ filter
              (fun j => pattern_before movements j = p /\
                        sym_at movements j = sym_at movements i)
              (range 3 (length movements))).
    { apply list_elem_of_filter. split; [done|]. by apply elem_of_range. }
    destruct (filter _ _); [by apply not_elem_of_nil in Hin|simpl in Hrec; lia].
Qed.

Lemma count_patterns_empty_iff movements :
  count_patterns movements = ∅ <-> length movements <= 3.
Proof.
  split.
  - intros Hempty. destruct (le_lt_dec (length movements) 3) as [|Hlt]; [done|].
    exfalso.
    assert (Hs : is_Some (count_patterns movements !! pattern_before movements 3)).
    { apply count_patterns_is_Some. exists 3. split; [lia|done]. }
    rewrite Hempty, lookup_empty in Hs. by destruct Hs.
  - intros Hle. unfold count_patterns, range.
    replace (length movements - 3) with 0 by lia. reflexivity.
Qed.

(** ** Model building and its failure condition *)

Lemma build_markov_model_None closes :
  build_markov_model closes = None <-> length closes < 4.
Proof.
  unfold build_markov_model.
  destruct (length closes <? 4) eqn:Hlt.
  - apply Nat.ltb_lt in Hlt. tauto.
  - apply Nat.ltb_ge in Hlt. split; [discriminate|lia].
Qed.

Lemma build_markov_model_Some closes tm pc :
  build_markov_model closes = Some (tm, pc) <->
  4 <= length closes /\
  pc = count_patterns (encode_movements closes) /\ tm = normalise pc.
Proof.
  unfold build_markov_model.
  destruct (length closes <? 4) eqn:Hlt.
  - apply Nat.ltb_lt in Hlt. split; [discriminate|lia].
  - apply Nat.ltb_ge in Hlt. split.
    + intros [= <- <-]. auto.
    + intros (_ & -> & ->). reflexivity.
Qed.

Lemma normalise_empty_iff pc : normalise pc = ∅ <-> pc = ∅.
Proof. unfold normalise. apply fmap_empty_iff. Qed.

Lemma train_inr df tr :
  train df = inr tr ->
  build_markov_model (Close <$> df) =
    Some (transition_matrix tr, pattern_counts tr) /\
  unique_patterns tr = size (transition_matrix tr) /\
  (unique_patterns tr = 0 -> avg_frequency tr = 0%Q).
Proof.
  unfold train.
  destruct (build_markov_model (Close <$> df)) as [[tm pc]|]; [|discriminate].
  intros [= <-]. simpl. repeat split.
  intros ->. reflexivity.
Qed.

(** C2, as the code has it: training aborts exactly when the table has fewer
    than 4 rows.  No emptiness check follows: whenever training succeeds the
    model is empty exactly for a table of 4 rows, and in that case the run
    goes on with 0 unique patterns and an average frequency of 0. *)
Theorem training_fails_only_on_row_count (df : list Candle) :
  (train df = inl ModelTrainingFailed <-> length df < 4) /\
  (forall e, train df = inl e -> e = ModelTrainingFailed) /\
  (forall tr, train df = inr tr ->
     (transition_matrix tr = ∅ <-> length df = 4) /\
     (length df = 4 -> unique_patterns tr = 0 /\ avg_frequency tr = 0%Q)).
Proof.
  pose proof (build_markov_model_None (Close <$> df)) as HNone.
  rewrite length_fmap in HNone.
  split; [|split].
  - unfold train.
    destruct (build_markov_model (Close <$> df)) as [[tm pc]|] eqn:Hb.
    + split; [discriminate|]. intros Hlt. apply HNone in Hlt. discriminate.
    + split; [intros _; by apply HNone|done].
  - unfold train.
    destruct (build_markov_model (Close <$> df)) as [[tm pc]|];
      [discriminate|]. by intros e [= <-].
  - intros tr Htr. apply train_inr in Htr as (Hb & Hsize & Havg).
    apply build_markov_model_Some in Hb as (Hlen & Hpc & Htm).
    rewrite length_fmap in Hlen.
    assert (Hiff : transition_matrix tr = ∅ <-> length df = 4).
    { rewrite Htm, normalise_empty_iff, Hpc, count_patterns_empty_iff.
      rewrite length_encode_movements, length_fmap. lia. }
    split; [exact Hiff|].
    intros H4. apply Hiff in H4.
    assert (unique_patterns tr = 0) by (rewrite Hsize; by apply map_size_empty_iff).
    auto.
Qed.

Lemma training_fails_only_on_row_count_witness :
  let df := [mkCandle 1 1 1 1; mkCandle 1 2 2 2; mkCandle 1 3 3 3;
             mkCandle 1 4 4 4] in
  let tr := mkTraining ∅ ∅ 0 0 in
  train df = inr tr /\ unique_patterns tr = 0 /\ avg_frequency tr = 0%Q.
Proof.
  intros df tr.
  destruct (training_fails_only_on_row_count df) as (_ & _ & Hrun).
  assert (Htr : train df = inr tr) by (vm_compute; reflexivity).
  split; [exact Htr|].
  apply (Hrun tr Htr). reflexivity.
Defined.

(** C2, as stated, fails: four candles pass the row check, yield an empty
    pattern table, and training still succeeds. *)
Lemma four_candles_train_an_empty_model :
  let df := [mkCandle 1 1 1 1; mkCandle 1 2 2 2; mkCandle 1 3 3 3;
             mkCandle 1 4 4 4] in
  count_patterns (encode_movements (Close <$> df)) = ∅ /\
  train df = inr (mkTraining ∅ ∅ 0 0).
Proof. split; vm_compute; reflexivity. Qed.

(** ** Which patterns the model stores *)

Lemma observed_at_nonempty movements p :
  observed_at movements p ≠ [] <->
  exists i, 3 <= i < length movements /\ pattern_before movements i = p.
Proof.
  unfold observed_at. split.
  - destruct (filter _ _) as [|i l] eqn:Hf; [done|]. intros _.
    assert (Hin : i ∈ filter (fun i => pattern_before movements i = p)
                             (range 3 (length movements)))
      by (rewrite Hf; left).
    apply list_elem_of_filter in Hin as [Hp Hr].
    apply elem_of_range in Hr. eauto.
  - intros (i & Hi & Hp) Hnil.
    eapply filter_nil_not_elem_of; [exact Hnil|exact Hp|].
    by apply elem_of_range.
Qed.

Lemma sum_values_singleton (m : Movement) (n : nat) :
  sum_values {[m := n]} = n.
Proof. unfold sum_values. rewrite map_fold_singleton. lia. Qed.

Lemma to_distribution_single (m : Movement) :
  to_distribution {[m := 1]} = {[m := 1%Q]}.
Proof.
  unfold to_distribution. rewrite sum_values_singleton.
  by rewrite map_fmap_singleton.
Qed.

(** A pattern observed at a single loop index has the one-entry counter. *)
Lemma single_observation_counter movements p i :
  observed_at movements p = [i] ->
  count_patterns movements !! p = Some {[sym_at movements i := 1]}.
Proof.
  intros Hobs.
  assert (Hrec : forall m, recorded (count_patterns movements) p m =
                           if decide (sym_at movements i = m) then 1 else 0).
  { intros m. rewrite recorded_count_patterns.
    rewrite (list_filter_iff _
               (fun j => sym_at movements j = m /\ pattern_before movements j = p))
      by (intros j; tauto).
    rewrite <- (list_filter_filter (fun j => sym_at movements j = m)
                  (fun j => pattern_before movements j = p)).
    fold (observed_at movements p). rewrite Hobs, filter_cons, filter_nil.
    by destruct (decide (sym_at movements i = m)). }
  destruct (count_patterns movements !! p) as [c|] eqn:Hc.
  - f_equal. apply map_eq. intros m.
    destruct (well_counted_count_patterns movements p c Hc) as [_ Hpos].
    specialize (Hrec m). rewrite (recorded_Some _ _ _ _ Hc) in Hrec.
    destruct (decide (sym_at movements i = m)) as [<-|Hne].
    + rewrite lookup_singleton_eq.
      destruct (c !! sym_at movements i); simpl in Hrec; congruence.
    + rewrite lookup_singleton_ne by done.
      destruct (c !! m) as [n|] eqn:Hm; [|done].
      apply Hpos in Hm. simpl in Hrec. lia.
  - specialize (Hrec (sym_at movements i)).
    rewrite (recorded_None _ _ _ Hc), decide_True in Hrec by done. lia.
Qed.

(** C3, as the code has it: the model stores exactly the patterns that were
    observed at least once with an outcome.  A pattern observed a single
    time is stored too, with all the mass on its one outcome; a pattern
    never observed is absent. *)
Theorem model_stores_every_observed_pattern (closes : list Q) tm pc :
  build_markov_model closes = Some (tm, pc) ->
  forall p,
    (is_Some (tm !! p) <-> observed_at (encode_movements closes) p ≠ []) /\
    (observed_at (encode_movements closes) p = [] -> tm !! p = None) /\
    (forall i, observed_at (encode_movements closes) p = [i] ->
       tm !! p = Some {[sym_at (encode_movements closes) i := 1%Q]}).
Proof.
  intros Hb p. apply build_markov_model_Some in Hb as (_ & -> & ->).
  unfold normalise. rewrite lookup_fmap.
  assert (Hiff : is_Some (to_distribution <$>
                    count_patterns (encode_movements closes) !! p) <->
                 observed_at (encode_movements closes) p ≠ []).
  { rewrite fmap_is_Some, count_patterns_is_Some.
    symmetry. apply observed_at_nonempty. }
  split; [exact Hiff|]. split.
  - intros Hnil. apply eq_None_not_Some. rewrite Hiff. tauto.
  - intros i Hobs. rewrite (single_observation_counter _ _ _ Hobs). simpl.
    by rewrite to_distribution_single.
Qed.

Lemma model_stores_every_observed_pattern_witness :
  let closes := [1; 2; 3; 2; 2]%Q in
  let tm := normalise (count_patterns (encode_movements closes)) in
  let p := (UP, UP, DOWN) in
  (is_Some (tm !! p) <-> observed_at (encode_movements closes) p ≠ []) /\
  (observed_at (encode_movements closes) p = [] -> tm !! p = None) /\
  (forall i, observed_at (encode_movements closes) p = [i] ->
     tm !! p = Some {[sym_at (encode_movements closes) i := 1%Q]}).
Proof.
  intros closes tm p.
  apply (model_stores_every_observed_pattern closes tm
           (count_patterns (encode_movements closes))).
  reflexivity.
Defined.

(** C3, as stated, fails: in the movements of closes 1,2,3,2,2 the window
    (UP, UP, DOWN) occurs once and never again, yet the model stores it,
    with probability 1 on FLAT. *)
Lemma single_occurrence_is_stored :
  let closes := [1; 2; 3; 2; 2]%Q in
  encode_movements closes = [UP; UP; DOWN; FLAT] /\
  window_positions (encode_movements closes) (UP, UP, DOWN) = [3] /\
  exists tm pc,
    build_markov_model closes = Some (tm, pc) /\
    tm !! (UP, UP, DOWN) = Some {[FLAT := 1%Q]}.
Proof.
  split; [reflexivity|]. split; [reflexivity|].
  eexists _, _. split; [reflexivity|]. vm_compute. reflexivity.
Qed.

(** ** Stored distributions sum to one *)

Lemma int_div_add (a b total : nat) :
  (int_div (a + b) total == int_div a total + int_div b total)%Q.
Proof.
  unfold int_div. rewrite Nat2Z.inj_add, inject_Z_plus.
  unfold Qdiv. ring.
Qed.

Lemma int_div_zero (total : nat) : (int_div 0 total == 0)%Q.
Proof. unfold int_div, Qdiv. simpl. ring. Qed.

Lemma inject_nat_pos (n : nat) : 0 < n -> (0 < inject_Z (Z.of_nat n))%Q.
Proof.
  intros Hn. change 0%Q with (inject_Z 0). rewrite <- Zlt_Qlt. lia.
Qed.

Lemma int_div_self (total : nat) : 0 < total -> (int_div total total == 1)%Q.
Proof.
  intros Hpos. unfold int_div, Qdiv. apply Qmult_inv_r.
  intros H0. apply inject_nat_pos in Hpos. rewrite H0 in Hpos.
  by apply Qlt_irrefl in Hpos.
Qed.

Lemma int_div_nonneg (n total : nat) : (0 <= int_div n total)%Q.
Proof.
  unfold int_div, Qdiv. apply Qmult_le_0_compat.
  - change 0%Q with (inject_Z 0). rewrite <- Zle_Qle. lia.
  - apply Qinv_le_0_compat.
    change 0%Q with (inject_Z 0). rewrite <- Zle_Qle. lia.
Qed.

Lemma sum_values_empty : sum_values ∅ = 0.
Proof. unfold sum_values. by rewrite map_fold_empty. Qed.

Lemma sum_values_insert (c : gmap Movement nat) m n :
  c !! m = None -> sum_values (<[m := n]> c) = n + sum_values c.
Proof.
  intros Hm. unfold sum_values. rewrite map_fold_insert_L; [done| |done].
  intros. lia.
Qed.

Lemma sum_probs_empty : sum_probs ∅ = 0%Q.
Proof. unfold sum_probs. by rewrite map_fold_empty. Qed.

Lemma sum_probs_insert (probs : gmap Movement Q) m q :
  probs !! m = None -> (sum_probs (<[m := q]> probs) == q + sum_probs probs)%Q.
Proof.
  intros Hm. unfold sum_probs.
  apply (map_fold_insert Qeq (fun _ q acc => (q + acc)%Q)); [| |done].
  - intros _ z x y Hxy. by rewrite Hxy.
  - intros. ring.
Qed.

(** Dividing every count by [total] divides the sum by [total]. *)
Lemma sum_probs_scaled (c : gmap Movement nat) (total : nat) :
  (sum_probs ((fun n => int_div n total) <$> c) ==
   int_div (sum_values c) total)%Q.
Proof.
  induction c as [|m n c Hm IH] using map_ind.
  - rewrite fmap_empty, sum_probs_empty, sum_values_empty.
    symmetry. apply int_div_zero.
  - rewrite fmap_insert, sum_probs_insert by (by rewrite lookup_fmap, Hm).
    rewrite sum_values_insert by done.
    by rewrite int_div_add, IH.
Qed.

Lemma sum_values_pos (c : gmap Movement nat) :
  c ≠ ∅ -> (forall m n, c !! m = Some n -> 0 < n) -> 0 < sum_values c.
Proof.
  intros Hne Hpos. destruct (map_choose c Hne) as (m & n & Hm).
  rewrite <- (insert_delete_id c m n Hm).
  rewrite sum_values_insert by apply lookup_delete_eq.
  apply Hpos in Hm. lia.
Qed.

(** A counter has at most the three keys UP, DOWN and FLAT. *)
Lemma sum_values_three (c : gmap Movement nat) :
  sum_values c =
  default 0 (c !! UP) + default 0 (c !! DOWN) + default 0 (c !! FLAT).
Proof.
  induction c as [|m n c Hm IH] using map_ind.
  - rewrite sum_values_empty. by rewrite !lookup_empty.
  - rewrite sum_values_insert, IH by done.
    destruct m;
      rewrite lookup_insert_eq, !lookup_insert_ne by done;
      rewrite Hm; simpl; lia.
Qed.

Lemma get_prob_to_distribution (c : gmap Movement nat) (m : Movement) :
  (get_prob (to_distribution c) m ==
   int_div (default 0%nat (c !! m)) (sum_values c))%Q.
Proof.
  unfold get_prob, to_distribution. rewrite lookup_fmap.
  destruct (c !! m); simpl; [reflexivity|].
  symmetry. apply int_div_zero.
Qed.

Lemma to_distribution_distribution (c : gmap Movement nat) :
  0 < sum_values c -> distribution (to_distribution c).
Proof.
  intros Hpos. split.
  - intros m. rewrite get_prob_to_distribution. apply int_div_nonneg.
  - rewrite !get_prob_to_distribution, <- !int_div_add.
    rewrite <- sum_values_three. by apply int_div_self.
Qed.

Lemma trained_counter closes tm pc p probs :
  build_markov_model closes = Some (tm, pc) ->
  tm !! p = Some probs ->
  exists c, pc !! p = Some c /\ probs = to_distribution c /\ 0 < sum_values c.
Proof.
  intros Hb Hp. apply build_markov_model_Some in Hb as (_ & Hpc & ->).
  unfold normalise in Hp. rewrite lookup_fmap in Hp.
  destruct (pc !! p) as [c|] eqn:Hc; [|discriminate].
  injection Hp as <-. exists c. repeat split.
  assert (Hwf : well_counted pc)
    by (rewrite Hpc; apply well_counted_count_patterns).
  destruct (Hwf p c Hc) as [Hne Hpos]. by apply sum_values_pos.
Qed.

Lemma trained_distribution closes tm pc p probs :
  build_markov_model closes = Some (tm, pc) ->
  tm !! p = Some probs -> distribution probs.
Proof.
  intros Hb Hp.
  destruct (trained_counter _ _ _ _ _ Hb Hp) as (c & _ & -> & Hpos).
  by apply to_distribution_distribution.
Qed.

(** C5: for every pattern stored in the trained model, the stored outcome
    probabilities add up to exactly 1 over the rationals, each being the
    outcome's count divided by the pattern's total count. *)
Theorem stored_probabilities_sum_to_one (closes : list Q) tm pc p probs :
  build_markov_model closes = Some (tm, pc) ->
  tm !! p = Some probs ->
  (sum_probs probs == 1)%Q /\
  exists counter,
    pc !! p = Some counter /\
    forall move,
      probs !! move =
      (fun n => int_div n (sum_values counter)) <$> counter !! move.
Proof.
  intros Hb Hp.
  destruct (trained_counter _ _ _ _ _ Hb Hp) as (c & Hc & -> & Hpos).
  split.
  - unfold to_distribution. rewrite sum_probs_scaled. by apply int_div_self.
  - exists c. split; [done|]. intros move.
    unfold to_distribution. by rewrite lookup_fmap.
Qed.

Lemma stored_probabilities_sum_to_one_witness :
  let closes := [1; 2; 3; 2; 3; 4; 3; 4; 5; 6]%Q in
  let pc := count_patterns (encode_movements closes) in
  let probs := {[UP := int_div 1 2; DOWN := int_div 1 2]} in
  (sum_probs probs == 1)%Q /\
  exists counter,
    pc !! (DOWN, UP, UP) = Some counter /\
    forall move,
      probs !! move =
      (fun n => int_div n (sum_values counter)) <$> counter !! move.
Proof.
  intros closes pc probs.
  apply (stored_probabilities_sum_to_one closes (normalise pc) pc (DOWN, UP, UP)).
  - reflexivity.
  - vm_compute. reflexivity.
Defined.

(** ** Pattern matching against a trained model *)
Lemma build_markov_model_trained closes tm pc :
  build_markov_model closes = Some (tm, pc) -> trained tm.
Proof. intros Hb p probs Hp. eapply trained_distribution; eauto. Qed.

Lemma mass_balanced_init : mass_balanced (mkTotals 0 0 0 0).
Proof. unfold mass_balanced. simpl. repeat split; try apply Qle_refl. Qed.

Lemma mass_balanced_step tm acc p :
  trained tm -> mass_balanced acc -> mass_balanced (match_step tm acc p).
Proof.
  intros Htm (Hu & Hd & Hf & Hsum). unfold match_step.
  destruct (tm !! p) as [probs|] eqn:Hp; [|by repeat split].
  destruct (Htm p probs Hp) as [Hnn Hone].
  unfold mass_balanced. simpl.
  pose proof (Hnn UP). pose proof (Hnn DOWN). pose proof (Hnn FLAT).
  rewrite Nat2Z.inj_add, inject_Z_plus.
  change (inject_Z (Z.of_nat 1)) with 1%Q.
  repeat split; lra.
Qed.

Lemma mass_balanced_match_patterns tm patterns_found :
  trained tm -> mass_balanced (match_patterns tm patterns_found).
Proof.
  intros Htm. unfold match_patterns. apply fold_left_invariant.
  - apply mass_balanced_init.
  - intros acc p. by apply mass_balanced_step.
Qed.

(** The matched counter counts the patterns that are keys of the model. *)
Lemma matched_patterns_fold tm patterns_found acc :
  matched_patterns (fold_left (match_step tm) patterns_found acc) =
  matched_patterns acc +
  length (filter (fun p => is_Some (tm !! p)) patterns_found).
Proof.
  revert acc. induction patterns_found as [|p l IH]; intros acc; simpl.
  - lia.
  - rewrite IH, filter_cons. unfold match_step.
    destruct (tm !! p) as [probs|] eqn:Hp.
    + rewrite decide_True by eauto. simpl. lia.
    + rewrite decide_False by (by intros [? ?]). lia.
Qed.

Lemma matched_patterns_count tm patterns_found :
  matched_patterns (match_patterns tm patterns_found) =
  length (filter (fun p => is_Some (tm !! p)) patterns_found).
Proof. unfold match_patterns. by rewrite matched_patterns_fold. Qed.

(** ** Confidence percentages *)

Lemma py_div_nonzero (a b : Q) : ~ (b == 0)%Q -> py_div a b = inr (a / b)%Q.
Proof.
  intros Hb. unfold py_div.
  destruct (Qeq_bool b 0) eqn:Heq; [|reflexivity].
  apply Qeq_bool_iff in Heq. contradiction.
Qed.

Lemma confidences_balanced (t : Totals) :
  mass_balanced t -> 1 <= matched_patterns t ->
  let total := (total_up t + total_down t + total_flat t)%Q in
  (0 < total)%Q /\
  confidences t =
    inr (mkConfidence (total_up t / total * 100) (total_down t / total * 100)
                      (total_flat t / total * 100))%Q.
Proof.
  intros (Hu & Hd & Hf & Hsum) Hm total.
  assert (Hpos : (0 < total)%Q).
  { unfold total. rewrite Hsum. apply inject_nat_pos. lia. }
  split; [exact Hpos|].
  assert (Hne : ~ (total == 0)%Q).
  { intros H0. rewrite H0 in Hpos. by apply Qlt_irrefl in Hpos. }
  unfold confidences.
  destruct (matched_patterns t =? 0) eqn:H0; [apply Nat.eqb_eq in H0; lia|].
  fold total. rewrite !py_div_nonzero by done. reflexivity.
Qed.

(** With a trained model and at least one match the percentages exist and
    add up to 100. *)
Lemma confidences_trained tm (patterns_found : list Pattern) :
  trained tm ->
  1 <= matched_patterns (match_patterns tm patterns_found) ->
  let t := match_patterns tm patterns_found in
  (total_up t + total_down t + total_flat t ==
     inject_Z (Z.of_nat (matched_patterns t)))%Q /\
  (0 < total_up t + total_down t + total_flat t)%Q /\
  exists c,
    confidences t = inr c /\
    (confidence_up c + confidence_down c + confidence_flat c == 100)%Q.
Proof.
  intros Htm Hm t.
  pose proof (mass_balanced_match_patterns tm patterns_found Htm) as Hbal.
  fold t in Hbal.
  destruct (confidences_balanced t Hbal Hm) as [Hpos Hconf].
  split; [apply Hbal|]. split; [exact Hpos|].
  eexists. split; [exact Hconf|]. simpl.
  field. intros H0. rewrite H0 in Hpos. by apply Qlt_irrefl in Hpos.
Qed.

(** C7: when at least one pattern of the day matched the trained model, the
    accumulated mass equals the number of matched patterns and so is
    strictly positive, the normalising divisions succeed, and the three
    confidence percentages add up to exactly 100. *)
Theorem confidences_sum_to_100 (closes : list Q) tm pc
    (patterns_found : list Pattern) :
  build_markov_model closes = Some (tm, pc) ->
  1 <= matched_patterns (match_patterns tm patterns_found) ->
  let t := match_patterns tm patterns_found in
  (total_up t + total_down t + total_flat t ==
     inject_Z (Z.of_nat (matched_patterns t)))%Q /\
  (0 < total_up t + total_down t + total_flat t)%Q /\
  exists c,
    confidences t = inr c /\
    (confidence_up c + confidence_down c + confidence_flat c == 100)%Q.
Proof.
  intros Hb Hm. apply confidences_trained; [|exact Hm].
  by eapply build_markov_model_trained.
Qed.

Lemma confidences_sum_to_100_witness :
  let closes := [1; 2; 3; 2; 3; 4; 3; 4; 5; 6]%Q in
  let tm := normalise (count_patterns (encode_movements closes)) in
  let t := match_patterns tm [(FLAT, UP, UP); (UP, UP, DOWN)] in
  (total_up t + total_down t + total_flat t ==
     inject_Z (Z.of_nat (matched_patterns t)))%Q /\
  (0 < total_up t + total_down t + total_flat t)%Q /\
  exists c,
    confidences t = inr c /\
    (confidence_up c + confidence_down c + confidence_flat c == 100)%Q.
Proof.
  intros closes tm.
  apply (confidences_sum_to_100 closes tm
           (count_patterns (encode_movements closes))
           [(FLAT, UP, UP); (UP, UP, DOWN)]).
  - reflexivity.
  - vm_compute. lia.
Defined.

(** ** Signal strength *)

Lemma Qgtb_false (a b : Q) : Qgtb a b = false <-> (a <= b)%Q.
Proof.
  rewrite <- not_true_iff_false, Qgtb_spec. split.
  - apply Qnot_lt_le.
  - intros Hle Hlt. by apply (Qlt_irrefl a), (Qle_lt_trans _ b).
Qed.

Lemma py_max3_ge (a b c : Q) :
  (a <= py_max3 a b c /\ b <= py_max3 a b c /\ c <= py_max3 a b c)%Q.
Proof.
  unfold py_max3.
  destruct (Qgtb b a) eqn:Hba;
    [apply Qgtb_spec in Hba|apply Qgtb_false in Hba].
  - destruct (Qgtb c b) eqn:Hcb;
      [apply Qgtb_spec in Hcb|apply Qgtb_false in Hcb];
      repeat split; lra.
  - destruct (Qgtb c a) eqn:Hca;
      [apply Qgtb_spec in Hca|apply Qgtb_false in Hca];
      repeat split; lra.
Qed.

Lemma py_max3_third (a b c : Q) :
  (a + b + c == 100 -> 100 # 3 <= py_max3 a b c)%Q.
Proof.
  intros Hsum. destruct (py_max3_ge a b c) as (Ha & Hb & Hc). lra.
Qed.

Lemma strength_score_nonneg (mx : Q) :
  (100 # 3 <= mx -> 0 <= strength_score mx)%Q.
Proof.
  unfold strength_score, Qdiv. intros H.
  change (/ 66.67)%Q with (100 # 6667)%Q. lra.
Qed.

Lemma signal_strength_tiers (score : Q) :
  (signal_strength score = Strong <-> (70 < score)%Q) /\
  (signal_strength score = Moderate <-> (score <= 70 /\ 40 < score)%Q) /\
  (signal_strength score = Weak <-> (score <= 40)%Q).
Proof.
  unfold signal_strength.
  destruct (Qgtb score 70) eqn:H70;
    [apply Qgtb_spec in H70|apply Qgtb_false in H70].
  - repeat split; try done; intros; destruct_and?; exfalso; lra.
  - destruct (Qgtb score 40) eqn:H40;
      [apply Qgtb_spec in H40|apply Qgtb_false in H40].
    + repeat split; try done; intros; destruct_and?; exfalso; lra.
    + repeat split; try done; intros; destruct_and?; exfalso; lra.
Qed.

(** C8: when at least one pattern matched, the largest confidence is at
    least 100/3, above 33.33, so the strength score is never negative; the
    tier is Strong above 70, Moderate above 40 and Weak otherwise. *)
Theorem signal_strength_is_nonnegative (closes : list Q) tm pc
    (patterns_found : list Pattern) :
  build_markov_model closes = Some (tm, pc) ->
  1 <= matched_patterns (match_patterns tm patterns_found) ->
  exists c,
    confidences (match_patterns tm patterns_found) = inr c /\
    let max_confidence :=
      py_max3 (confidence_up c) (confidence_down c) (confidence_flat c) in
    let score := strength_score max_confidence in
    (33.33 < 100 # 3 <= max_confidence)%Q /\
    (0 <= score)%Q /\
    (signal_strength score = Strong <-> (70 < score)%Q) /\
    (signal_strength score = Moderate <-> (score <= 70 /\ 40 < score)%Q) /\
    (signal_strength score = Weak <-> (score <= 40)%Q).
Proof.
  intros Hb Hm.
  destruct (confidences_trained tm patterns_found
              (build_markov_model_trained _ _ _ Hb) Hm)
    as (_ & _ & c & Hc & Hsum).
  exists c. split; [exact Hc|]. intros mx score.
  assert (Hthird : (100 # 3 <= mx)%Q) by (by apply py_max3_third).
  split; [split; [lra|exact Hthird]|].
  split; [by apply strength_score_nonneg|].
  apply signal_strength_tiers.
Qed.

Lemma signal_strength_is_nonnegative_witness :
  let closes := [1; 2; 3; 2; 3; 4; 3; 4; 5; 6]%Q in
  let tm := normalise (count_patterns (encode_movements closes)) in
  exists c,
    confidences (match_patterns tm [(FLAT, UP, UP); (DOWN, UP, UP)]) = inr c /\
    let max_confidence :=
      py_max3 (confidence_up c) (confidence_down c) (confidence_flat c) in
    let score := strength_score max_confidence in
    (33.33 < 100 # 3 <= max_confidence)%Q /\
    (0 <= score)%Q /\
    (signal_strength score = Strong <-> (70 < score)%Q) /\
    (signal_strength score = Moderate <-> (score <= 70 /\ 40 < score)%Q) /\
    (signal_strength score = Weak <-> (score <= 40)%Q).
Proof.
  intros closes tm.
  apply (signal_strength_is_nonnegative closes tm
           (count_patterns (encode_movements closes))
           [(FLAT, UP, UP); (DOWN, UP, UP)]).
  - reflexivity.
  - vm_compute. lia.
Defined.

(** ** The predicted class *)

Lemma py_max3_cases (a b c : Q) :
  py_max3 a b c = a \/ py_max3 a b c = b \/ py_max3 a b c = c.
Proof.
  unfold py_max3. destruct (Qgtb b a).
  - destruct (Qgtb c b); auto.
  - destruct (Qgtb c a); auto.
Qed.

Lemma Qeq_bool_false (a b : Q) : Qeq_bool a b = false <-> ~ (a == b)%Q.
Proof. rewrite <- not_true_iff_false, Qeq_bool_iff. tauto. Qed.

(** C6: the predicted class is an arg-max of the three confidences, chosen
    by comparing the maximum for equality with the UP confidence first,
    then the DOWN confidence, then FLAT; hence when the DOWN and FLAT
    confidences are equal and both exceed the UP confidence the class is
    the bearish one. *)
Theorem argmax_tie_break (c : Confidence) :
  let up := confidence_up c in
  let down := confidence_down c in
  let flat := confidence_flat c in
  let max_confidence := py_max3 up down flat in
  (up <= max_confidence /\ down <= max_confidence /\ flat <= max_confidence)%Q /\
  (snd (classify c) == max_confidence)%Q /\
  (classify c = (BULLISH, up) <-> (max_confidence == up)%Q) /\
  (classify c = (BEARISH, down) <->
     ~ (max_confidence == up)%Q /\ (max_confidence == down)%Q) /\
  (classify c = (NEUTRAL, flat) <->
     ~ (max_confidence == up)%Q /\ ~ (max_confidence == down)%Q) /\
  ((down == flat)%Q -> (up < down)%Q -> classify c = (BEARISH, down)).
Proof.
  intros up down flat mx.
  pose proof (py_max3_ge up down flat) as Hge. fold mx in Hge.
  pose proof (py_max3_cases up down flat) as Hcases. fold mx in Hcases.
  assert (Hclass :
    (classify c = (BULLISH, up) <-> (mx == up)%Q) /\
    (classify c = (BEARISH, down) <-> ~ (mx == up)%Q /\ (mx == down)%Q) /\
    (classify c = (NEUTRAL, flat) <-> ~ (mx == up)%Q /\ ~ (mx == down)%Q)).
  { unfold classify. fold up down flat mx.
    destruct (Qeq_bool mx up) eqn:Hup;
      [apply Qeq_bool_iff in Hup|apply Qeq_bool_false in Hup].
    - repeat split; try done; intros; destruct_and?; done.
    - destruct (Qeq_bool mx down) eqn:Hdown;
        [apply Qeq_bool_iff in Hdown|apply Qeq_bool_false in Hdown];
        repeat split; try done; intros; destruct_and?; done. }
  split; [exact Hge|]. split; [|split; [apply Hclass|split; [apply Hclass|split;
    [apply Hclass|]]]].
  - unfold classify. fold up down flat mx.
    destruct (Qeq_bool mx up) eqn:Hup; simpl.
    + apply Qeq_bool_iff in Hup. by symmetry.
    + apply Qeq_bool_false in Hup.
      destruct (Qeq_bool mx down) eqn:Hdown; simpl.
      * apply Qeq_bool_iff in Hdown. by symmetry.
      * apply Qeq_bool_false in Hdown.
        destruct Hcases as [H|[H|H]]; rewrite H in *;
          try (exfalso; apply Hup; reflexivity);
          try (exfalso; apply Hdown; reflexivity).
        reflexivity.
  - intros Heq Hlt. apply Hclass. split.
    + intros H. lra.
    + destruct Hcases as [H|[H|H]]; rewrite H in *; lra.
Qed.

Lemma argmax_tie_break_witness :
  classify (mkConfidence 20 40 40) = (BEARISH, 40%Q).
Proof.
  destruct (argmax_tie_break (mkConfidence 20 40 40))
    as (_ & _ & _ & _ & _ & Htie).
  apply Htie; simpl; lra.
Defined.

(** ** Momentum *)

Lemma momentum_loop_bounds last_5 indices consecutive :
  consecutive <= momentum_loop last_5 indices consecutive
              <= consecutive + length indices.
Proof.
  revert consecutive. induction indices as [|i rest IH]; intros k; simpl.
  - lia.
  - destruct (_ && _); [|lia]. specialize (IH (k + 1)). lia.
Qed.

Lemma length_tail5 (movement : list Movement) :
  length (tail5 movement) = length movement `min` 5.
Proof. unfold tail5. rewrite length_drop. lia. Qed.

Lemma rev_range_step (n : nat) :
  2 <= n -> rev (range 1 n) = (n - 1) :: rev (range 1 (n - 1)).
Proof.
  intros Hn. unfold range.
  replace (n - 1) with (S (n - 1 - 1)) at 1 by lia.
  rewrite seq_S, rev_unit. f_equal. lia.
Qed.

(** A trailing FLAT stops the loop at its first comparison. *)
Lemma consecutive_run_trailing_flat (last_5 : list Movement) :
  last last_5 = Some FLAT -> consecutive_run last_5 = 1.
Proof.
  intros Hlast. unfold consecutive_run.
  destruct (le_lt_dec 2 (length last_5)) as [Hge|Hlt].
  - rewrite rev_range_step by done. simpl.
    rewrite last_lookup in Hlast.
    replace (pred (length last_5)) with (length last_5 - 1) in Hlast by lia.
    rewrite (sym_at_lookup _ _ _ Hlast).
    rewrite (bool_decide_eq_false_2 (FLAT ≠ FLAT)) by (intros H; by apply H).
    by rewrite andb_false_r.
  - unfold range. replace (length last_5 - 1) with 0 by lia. reflexivity.
Qed.

Lemma last_tail5 (movement : list Movement) :
  last (tail5 movement) = last movement.
Proof.
  unfold tail5. rewrite !last_lookup, lookup_drop, length_drop.
  destruct movement as [|m movement]; [done|]. simpl length.
  f_equal. lia.
Qed.

(** C10: the consecutive-run counter of a day's movements lies between 1
    and 5; when the day's last symbol is FLAT the counter is exactly 1, so
    momentum is Weak and its type Mixed, whatever run precedes the FLAT. *)
Theorem momentum_counter_bounds (movement : list Movement) :
  let last_5 := tail5 movement in
  let consecutive := consecutive_run last_5 in
  1 <= consecutive <= 5 /\
  (last movement = Some FLAT ->
   consecutive = 1 /\
   momentum consecutive = Weak /\
   momentum_type last_5 consecutive = Mixed).
Proof.
  intros last_5 consecutive. split.
  - unfold consecutive, consecutive_run.
    pose proof (momentum_loop_bounds last_5
                  (rev (range 1 (length last_5))) 1) as Hb.
    rewrite length_rev in Hb. unfold range in Hb. rewrite length_seq in Hb.
    unfold range. pose proof (length_tail5 movement). fold last_5 in H. lia.
  - intros Hlast.
    assert (H1 : consecutive = 1).
    { apply consecutive_run_trailing_flat. unfold last_5.
      by rewrite last_tail5. }
    rewrite H1. auto.
Qed.

Lemma momentum_counter_bounds_witness :
  let movement := [FLAT; DOWN; UP; UP; UP; UP; UP; UP; UP; FLAT] in
  let consecutive := consecutive_run (tail5 movement) in
  consecutive = 1 /\
  momentum consecutive = Weak /\
  momentum_type (tail5 movement) consecutive = Mixed.
Proof.
  intros movement.
  apply (momentum_counter_bounds movement). reflexivity.
Defined.

(** ** Date selection *)

Lemma elem_of_unique (d : Z) (days : list Z) : d ∈ unique days <-> d ∈ days.
Proof.
  induction days as [|x rest IH]; simpl; [done|].
  rewrite !elem_of_cons, list_elem_of_filter, IH.
  destruct (decide (d = x)); tauto.
Qed.

Lemma NoDup_unique (days : list Z) : NoDup (unique days).
Proof.
  induction days as [|x rest IH]; simpl; [constructor|].
  apply NoDup_cons. split.
  - rewrite list_elem_of_filter. tauto.
  - by apply NoDup_filter.
Qed.

Lemma elem_of_available_dates (df : list Candle) (d : Z) :
  d ∈ available_dates df <-> d ∈ TradingDay <$> df.
Proof.
  unfold available_dates. rewrite merge_sort_Permutation.
  apply elem_of_unique.
Qed.

Lemma strictly_sorted (l : list Z) :
  StronglySorted Z.le l -> NoDup l -> StronglySorted Z.lt l.
Proof.
  induction 1 as [|x l Hsorted IH Hall]; intros Hnd; [constructor|].
  apply NoDup_cons in Hnd as [Hx Hnd]. constructor; [auto|].
  rewrite Forall_forall in *. intros y Hy.
  assert (x ≠ y) by (intros ->; contradiction).
  specialize (Hall y Hy). lia.
Qed.

(** The available dates are strictly increasing: sorted and distinct. *)
Lemma available_dates_sorted (df : list Candle) :
  StronglySorted Z.lt (available_dates df).
Proof.
  unfold available_dates. apply strictly_sorted.
  - apply StronglySorted_merge_sort; apply _.
  - rewrite merge_sort_Permutation. apply NoDup_unique.
Qed.

Lemma sorted_lookup_lt (l : list Z) (i j : nat) (x y : Z) :
  StronglySorted Z.lt l ->
  l !! i = Some x -> l !! j = Some y -> i < j -> (x < y)%Z.
Proof.
  intros Hsorted. revert i j.
  induction Hsorted as [|a l Hsorted IH Hall]; intros i j Hi Hj Hlt.
  - by rewrite lookup_nil in Hi.
  - destruct j as [|j]; [lia|]. simpl in Hj.
    destruct i as [|i]; simpl in Hi.
    + injection Hi as ->. rewrite Forall_forall in Hall.
      apply Hall. by eapply list_elem_of_lookup_2.
    + apply (IH i j); [done|done|lia].
Qed.

Lemma index_of_lookup (x : Z) (l : list Z) (i : nat) :
  index_of x l = Some i -> l !! i = Some x.
Proof.
  revert i. induction l as [|y rest IH]; intros i; simpl; [done|].
  destruct (decide (y = x)) as [->|Hne].
  - by intros [= <-].
  - destruct (index_of x rest) as [k|]; [|done].
    intros [= <-]. simpl. by apply IH.
Qed.

Lemma index_of_elem_of (x : Z) (l : list Z) :
  x ∈ l -> is_Some (index_of x l).
Proof.
  induction l as [|y rest IH]; simpl.
  - by intros ?%not_elem_of_nil.
  - intros Hin. destruct (decide (y = x)); [eauto|].
    apply elem_of_cons in Hin as [->|Hin]; [done|].
    destruct (IH Hin) as [k ->]. simpl. eauto.
Qed.

(** What date selection returns on a strictly increasing list of dates. *)
Lemma select_previous_day_cases (dates : list Z) (d : Z) :
  StronglySorted Z.lt dates ->
  ((d ∉ dates) /\ select_previous_day dates d = inl DateNotInDataset) \/
  (d ∈ dates /\ (forall d', d' ∈ dates -> (d <= d')%Z) /\
   select_previous_day dates d = inl NoPreviousDay) \/
  (d ∈ dates /\
   exists p i,
     select_previous_day dates d = inr p /\
     dates !! i = Some p /\ dates !! (i + 1) = Some d /\ (p < d)%Z /\
     forall d', d' ∈ dates -> (d' < d)%Z -> (d' <= p)%Z).
Proof.
  intros Hsorted. unfold select_previous_day.
  destruct (decide (d ∈ dates)) as [Hin|Hnin]; [right|left; done].
  destruct (index_of_elem_of d dates Hin) as [i Hi]. rewrite Hi.
  apply index_of_lookup in Hi.
  destruct (i =? 0) eqn:H0.
  - apply Nat.eqb_eq in H0. subst i. left. repeat split; [done|].
    intros d' [j Hj]%list_elem_of_lookup_1.
    destruct j as [|j]; [rewrite Hi in Hj; injection Hj as ->; lia|].
    pose proof (sorted_lookup_lt dates 0 (S j) d d' Hsorted Hi Hj). lia.
  - apply Nat.eqb_neq in H0. right. split; [done|].
    destruct (dates !! (i - 1)) as [p|] eqn:Hp.
    + exists p, (i - 1). replace (i - 1 + 1) with i by lia.
      pose proof (sorted_lookup_lt dates (i - 1) i p d Hsorted Hp Hi).
      repeat split; [done..|lia|].
      intros d' [j Hj]%list_elem_of_lookup_1 Hlt.
      destruct (lt_eq_lt_dec j (i - 1)) as [[Hji|Hji]|Hji].
      * pose proof (sorted_lookup_lt dates j (i - 1) d' p Hsorted Hj Hp). lia.
      * subst j. rewrite Hp in Hj. injection Hj as ->. lia.
      * destruct (decide (j = i)) as [->|Hne].
        -- rewrite Hi in Hj. injection Hj as ->. lia.
        -- pose proof (sorted_lookup_lt dates i j d d' Hsorted Hi Hj). lia.
    + apply lookup_ge_None in Hp. apply lookup_lt_Some in Hi. lia.
Qed.

(** C9: date selection aborts with the date-not-in-dataset error exactly
    for a date that is no trading day of the table, and with the
    no-previous-day error exactly for the earliest trading day; these are
    its only failures.  For any other trading day it selects the entry just
    before the date in the sorted list of distinct dates, the latest
    trading day before it. *)
Theorem date_selection_boundaries (df : list Candle) (prediction_date : Z) :
  let dates := available_dates df in
  let days := TradingDay <$> df in
  StronglySorted Z.lt dates /\
  (select_previous_day dates prediction_date = inl DateNotInDataset <->
     prediction_date ∉ days) /\
  (select_previous_day dates prediction_date = inl NoPreviousDay <->
     prediction_date ∈ days /\ forall d, d ∈ days -> (prediction_date <= d)%Z) /\
  (forall e, select_previous_day dates prediction_date = inl e ->
     e = DateNotInDataset \/ e = NoPreviousDay) /\
  (prediction_date ∈ days ->
   (exists d, d ∈ days /\ (d < prediction_date)%Z) ->
   exists previous_day i,
     select_previous_day dates prediction_date = inr previous_day /\
     dates !! i = Some previous_day /\
     dates !! (i + 1) = Some prediction_date /\
     previous_day ∈ days /\ (previous_day < prediction_date)%Z /\
     forall d, d ∈ days -> (d < prediction_date)%Z -> (d <= previous_day)%Z).
Proof.
  intros dates days.
  pose proof (available_dates_sorted df) as Hsorted. fold dates in Hsorted.
  assert (Hmem : forall d, d ∈ dates <-> d ∈ days)
    by (intros d; apply elem_of_available_dates).
  split; [exact Hsorted|].
  destruct (select_previous_day_cases dates prediction_date Hsorted)
    as [[Hnin Hsel]|[(Hin & Hmin & Hsel)|(Hin & p & i & Hsel & Hp & Hd & Hlt & Hmax)]];
    rewrite Hsel.
  - split; [split; [intros _; by rewrite <- Hmem|done]|].
    split; [split; [discriminate|]|].
    { intros [Hin _]. exfalso. by apply Hnin, Hmem. }
    split; [intros e [= <-]; auto|].
    intros Hin. exfalso. by apply Hnin, Hmem.
  - split; [split; [discriminate|]|].
    { intros Hnin. exfalso. by apply Hnin, Hmem. }
    split; [split; [intros _|done]|].
    { split; [by apply Hmem|]. intros d Hd. by apply Hmin, Hmem. }
    split; [intros e [= <-]; auto|].
    intros _ (d & Hd & Hlt). apply Hmem, Hmin in Hd. lia.
  - assert (Hpin : p ∈ days) by (apply Hmem; by eapply list_elem_of_lookup_2).
    split; [split; [discriminate|]|].
    { intros Hnin. exfalso. by apply Hnin, Hmem. }
    split; [split; [discriminate|]|].
    { intros [_ Hmin]. specialize (Hmin p Hpin). lia. }
    split; [intros e; discriminate|].
    intros _ _. exists p, i. repeat split; try done.
    intros d Hdin. apply Hmax. by apply Hmem.
Qed.

Lemma date_selection_boundaries_witness :
  let df := [mkCandle 3 1 1 1; mkCandle 3 2 2 2; mkCandle 5 1 1 1;
             mkCandle 8 2 2 2] in
  exists previous_day i,
    select_previous_day (available_dates df) 8 = inr previous_day /\
    available_dates df !! i = Some previous_day /\
    available_dates df !! (i + 1) = Some 8%Z /\
    previous_day ∈ TradingDay <$> df /\ (previous_day < 8)%Z /\
    forall d, d ∈ TradingDay <$> df -> (d < 8)%Z -> (d <= previous_day)%Z.
Proof.
  intros df.
  destruct (date_selection_boundaries df 8) as (_ & _ & _ & _ & Hprev).
  apply Hprev.
  - simpl. repeat constructor.
  - exists 3%Z. split; [simpl; repeat constructor|lia].
Defined.

(** ** The patterns of the selected day and the match quality *)

Lemma find_patterns_fmap (movement : list Movement) :
  find_patterns movement =
  (fun i => (sym_at movement (i - 2), sym_at movement (i - 1), sym_at movement i))
    <$> range 2 (length movement).
Proof. unfold find_patterns. by rewrite fold_left_append. Qed.

Lemma length_find_patterns (movement : list Movement) :
  length (find_patterns movement) = length movement - 2.
Proof. rewrite find_patterns_fmap. apply length_fmap_range. Qed.

Lemma length_day_movements (closes : list Q) :
  length (day_movements closes) = length closes.
Proof.
  unfold day_movements.
  apply (fold_left_invariant _ (fun column => length column = length closes)).
  - apply length_replicate.
  - intros column i Hlen.
    destruct (Qgtb _ _); [by rewrite length_insert|].
    destruct (Qltb _ _); [by rewrite length_insert|done].
Qed.

Lemma train_trained df tr : train df = inr tr -> trained (transition_matrix tr).
Proof.
  intros Htr. apply train_inr in Htr as (Hb & _).
  by eapply build_markov_model_trained.
Qed.

Lemma match_quality_inr (matched analyzed : nat) :
  0 < analyzed ->
  match_quality matched analyzed =
    inr (inject_Z (Z.of_nat matched) / inject_Z (Z.of_nat analyzed) * 100)%Q.
Proof.
  intros Hpos. unfold match_quality. rewrite py_div_nonzero; [done|].
  intros H0. apply inject_nat_pos in Hpos. rewrite H0 in Hpos.
  by apply Qlt_irrefl in Hpos.
Qed.

(** With a trained model, a day of at least 10 candles and at least one
    matched pattern, the predictor reaches its report. *)
Lemma predict_reports tr previous_day (prev_day_df : list Candle) :
  trained (transition_matrix tr) ->
  10 <= length prev_day_df ->
  let patterns_found := find_patterns (day_movements (Close <$> prev_day_df)) in
  let totals := match_patterns (transition_matrix tr) patterns_found in
  1 <= matched_patterns totals ->
  exists r,
    predict tr previous_day prev_day_df = inr r /\
    rep_patterns_analyzed r = length patterns_found /\
    rep_patterns_matched r = matched_patterns totals /\
    rep_match_quality r =
      (inject_Z (Z.of_nat (matched_patterns totals)) /
       inject_Z (Z.of_nat (length patterns_found)) * 100)%Q /\
    confidences totals = inr (rep_confidences r) /\
    rep_consecutive r =
      consecutive_run (tail5 (day_movements (Close <$> prev_day_df))).
Proof.
  intros Htm Hlen patterns_found totals Hm. subst totals patterns_found.
  pose proof (mass_balanced_match_patterns _
                (find_patterns (day_movements (Close <$> prev_day_df))) Htm)
    as Hbal.
  destruct (confidences_balanced _ Hbal Hm) as [_ Hconf].
  assert (Hpf : 0 < length (find_patterns (day_movements (Close <$> prev_day_df)))).
  { rewrite length_find_patterns, length_day_movements, length_fmap. lia. }
  unfold predict.
  destruct (length prev_day_df <? 10) eqn:H10; [apply Nat.ltb_lt in H10; lia|].
  rewrite Hconf. simpl.
  destruct (classify _) as [prediction confidence].
  destruct (volatility prev_day_df) as [atr vol].
  rewrite (match_quality_inr _ _ Hpf). simpl.
  eexists. split; [reflexivity|]. simpl. repeat split.
Qed.

(** C4, as the code has it: a pattern of the day that is absent from the
    model is skipped by the accumulation and is not counted as matched, but
    it does count in the number of patterns analyzed, which is every window
    of the day; the match quality is the matched count divided by that
    number of all windows, times 100. *)
Theorem match_quality_counts_all_patterns (df : list Candle) tr previous_day
    (prev_day_df : list Candle) :
  train df = inr tr ->
  10 <= length prev_day_df ->
  let patterns_found := find_patterns (day_movements (Close <$> prev_day_df)) in
  let tm := transition_matrix tr in
  let matched := length (filter (fun p => is_Some (tm !! p)) patterns_found) in
  1 <= matched ->
  (forall acc p, tm !! p = None -> match_step tm acc p = acc) /\
  exists r,
    predict tr previous_day prev_day_df = inr r /\
    rep_patterns_analyzed r = length patterns_found /\
    length patterns_found = length prev_day_df - 2 /\
    rep_patterns_matched r = matched /\
    (rep_match_quality r ==
       inject_Z (Z.of_nat matched) / inject_Z (Z.of_nat (length patterns_found))
       * 100)%Q.
Proof.
  intros Htr Hlen patterns_found tm matched Hm.
  split; [intros acc p Hp; unfold match_step; by rewrite Hp|].
  subst matched tm patterns_found.
  rewrite <- matched_patterns_count in Hm.
  destruct (predict_reports tr previous_day prev_day_df
              (train_trained _ _ Htr) Hlen Hm)
    as (r & Hr & Han & Hmat & Hq & _).
  exists r. split; [exact Hr|]. split; [exact Han|].
  split; [by rewrite length_find_patterns, length_day_movements, length_fmap|].
  rewrite <- matched_patterns_count. split; [exact Hmat|].
  rewrite Hq. reflexivity.
Qed.

Lemma match_quality_counts_all_patterns_witness :
  let df := example_table in
  let pc := count_patterns (encode_movements (Close <$> df)) in
  let tm := normalise pc in
  let tr := mkTraining tm pc 4 (int_div 7 4) in
  let prev_day_df := filter (fun c => TradingDay c = 1%Z) df in
  let patterns_found := find_patterns (day_movements (Close <$> prev_day_df)) in
  let matched := length (filter (fun p => is_Some (tm !! p)) patterns_found) in
  (forall acc p, tm !! p = None -> match_step tm acc p = acc) /\
  exists r,
    predict tr 1 prev_day_df = inr r /\
    rep_patterns_analyzed r = length patterns_found /\
    length patterns_found = length prev_day_df - 2 /\
    rep_patterns_matched r = matched /\
    (rep_match_quality r ==
       inject_Z (Z.of_nat matched) / inject_Z (Z.of_nat (length patterns_found))
       * 100)%Q.
Proof.
  intros df pc tm tr prev_day_df.
  apply (match_quality_counts_all_patterns df tr 1 prev_day_df).
  - vm_compute. reflexivity.
  - vm_compute. lia.
  - vm_compute. lia.
Defined.

(** C4, as stated, fails: on the example table the day's first window
    (FLAT, UP, UP) is absent from the model, yet it is one of the 8 patterns
    analyzed, and the match quality is 7/8, not 7/7. *)
Lemma absent_pattern_counts_as_analyzed :
  exists r,
    main example_table 2 = inr r /\
    (FLAT, UP, UP) ∈
      find_patterns (day_movements
        (Close <$> filter (fun c => TradingDay c = rep_previous_day r)
                          example_table)) /\
    transition_matrix (rep_training r) !! (FLAT, UP, UP) = None /\
    rep_patterns_analyzed r = 8 /\
    rep_patterns_matched r = 7 /\
    (rep_match_quality r == 87.5)%Q.
Proof.
  eexists. split; [reflexivity|].
  split; [vm_compute; left|].
  repeat split; vm_compute; reflexivity.
Qed.

(** * Further properties *)

(** ** The predictor's own encoding of the day *)

(** The column after the first [k] iterations of the overwriting loop. *)
Lemma day_movements_prefix (closes : list Q) (k : nat) :
  k < length closes ->
  let column :=
    fold_left
      (fun column i =>
         if Qgtb (at_index closes i) (at_index closes (i - 1))
         then <[i := UP]> column
         else if Qltb (at_index closes i) (at_index closes (i - 1))
              then <[i := DOWN]> column
              else column)
      (seq 1 k) (replicate (length closes) FLAT) in
  length column = length closes /\
  forall j, j < length closes ->
    column !! j =
    Some (if decide (1 <= j <= k) then movement_of closes j else FLAT).
Proof.
  induction k as [|k IH]; intros Hk; cbv zeta in *.
  - simpl. split; [apply length_replicate|].
    intros j Hj. rewrite lookup_replicate_2 by done.
    by rewrite decide_False by lia.
  - destruct (IH ltac:(lia)) as [Hlen Hlook]. clear IH.
    rewrite seq_S, fold_left_app. simpl.
    set (column := fold_left _ (seq 1 k) _) in *.
    assert (Hmove : forall j, j < length closes -> j ≠ S k ->
              (if decide (1 <= j <= k) then movement_of closes j else FLAT) =
              (if decide (1 <= j <= S k) then movement_of closes j else FLAT)).
    { intros j Hj Hne. destruct (decide (1 <= j <= k)).
      - by rewrite decide_True by lia.
      - by rewrite decide_False by lia. }
    assert (Hsk : movement_of closes (S k) =
              if Qgtb (at_index closes (S k)) (at_index closes k) then UP
              else if Qltb (at_index closes (S k)) (at_index closes k) then DOWN
              else FLAT).
    { unfold movement_of. by replace (S k - 1) with k by lia. }
    rewrite Nat.sub_0_r.
    destruct (Qgtb (at_index closes (S k)) (at_index closes k));
      [|destruct (Qltb (at_index closes (S k)) (at_index closes k))].
    + split; [by rewrite length_insert|]. intros j Hj.
      destruct (decide (j = S k)) as [->|Hne].
      * rewrite list_lookup_insert_eq by lia.
        rewrite decide_True by lia. by rewrite Hsk.
      * rewrite list_lookup_insert_ne by done.
        rewrite Hlook by done. f_equal. by apply Hmove.
    + split; [by rewrite length_insert|]. intros j Hj.
      destruct (decide (j = S k)) as [->|Hne].
      * rewrite list_lookup_insert_eq by lia.
        rewrite decide_True by lia. by rewrite Hsk.
      * rewrite list_lookup_insert_ne by done.
        rewrite Hlook by done. f_equal. by apply Hmove.
    + split; [done|]. intros j Hj. rewrite Hlook by done. f_equal.
      destruct (decide (j = S k)) as [->|Hne]; [|by apply Hmove].
      rewrite decide_False by lia. rewrite decide_True by lia.
      by rewrite Hsk.
Qed.

Lemma lookup_day_movements (closes : list Q) (j : nat) :
  j < length closes ->
  day_movements closes !! j =
  Some (if decide (j = 0) then FLAT else movement_of closes j).
Proof.
  intros Hj. unfold day_movements, range.
  destruct (day_movements_prefix closes (length closes - 1) ltac:(lia))
    as [_ Hlook].
  rewrite Hlook by done. f_equal.
  destruct (decide (j = 0)) as [->|Hne].
  - by rewrite decide_False by lia.
  - by rewrite decide_True by lia.
Qed.

(** X1: the predictor's re-encoding of a day is the training encoder's
    output with one FLAT put in front for the day's first candle; an empty
    day gives no symbols. *)
Theorem day_movements_is_flat_then_encoder (closes : list Q) :
  day_movements closes =
  match closes with
  | [] => []
  | _ :: _ => FLAT :: encode_movements closes
  end.
Proof.
  destruct closes as [|c closes]; [reflexivity|].
  apply list_eq. intros j.
  destruct (decide (j < length (c :: closes))) as [Hj|Hj].
  - rewrite lookup_day_movements by done.
    destruct j as [|j]; [reflexivity|]. simpl.
    rewrite lookup_encode_movements by (simpl in *; lia). reflexivity.
  - rewrite !(proj2 (lookup_ge_None _ _)); [done| |].
    + simpl. rewrite length_encode_movements. simpl in *. lia.
    + rewrite length_day_movements. lia.
Qed.

(** X2: a day of n movement symbols gives n-2 patterns, and the pattern at
    position k is the window of the symbols k, k+1 and k+2. *)
Theorem find_patterns_windows (movement : list Movement) :
  length (find_patterns movement) = length movement - 2 /\
  forall k a b c,
    movement !! k = Some a -> movement !! (k + 1) = Some b ->
    movement !! (k + 2) = Some c ->
    find_patterns movement !! k = Some (a, b, c).
Proof.
  split; [apply length_find_patterns|].
  intros k a b c Ha Hb Hc.
  assert (Hk : k + 2 < length movement) by (eapply lookup_lt_Some; eauto).
  rewrite find_patterns_fmap, lookup_fmap_range by lia.
  replace (2 + k - 2) with k by lia.
  replace (2 + k - 1) with (k + 1) by lia.
  replace (2 + k) with (k + 2) by lia.
  by rewrite (sym_at_lookup _ _ _ Ha), (sym_at_lookup _ _ _ Hb),
    (sym_at_lookup _ _ _ Hc).
Qed.

(** ** What the pattern table counts *)

Lemma sum_values_counter_incr (m : Movement) (c : gmap Movement nat) :
  sum_values (counter_incr m c) = S (sum_values c).
Proof.
  unfold counter_incr. destruct (c !! m) as [n|] eqn:Hm; simpl.
  - rewrite <- (insert_delete_eq c m (S n)).
    rewrite sum_values_insert by apply lookup_delete_eq.
    rewrite <- (insert_delete_id c m n Hm) at 2.
    rewrite sum_values_insert by apply lookup_delete_eq. lia.
  - by rewrite sum_values_insert by done.
Qed.

Lemma total_observations_empty : total_observations ∅ = 0.
Proof. unfold total_observations. by rewrite map_fold_empty. Qed.

Lemma total_observations_insert pc (p : Pattern) (c : gmap Movement nat) :
  pc !! p = None ->
  total_observations (<[p := c]> pc) = sum_values c + total_observations pc.
Proof.
  intros Hp. unfold total_observations.
  rewrite map_fold_insert_L; [done| |done]. intros. lia.
Qed.

Lemma total_observations_record_transition pc p m :
  total_observations (record_transition pc p m) = S (total_observations pc).
Proof.
  unfold record_transition. destruct (pc !! p) as [c|] eqn:Hp; simpl.
  - rewrite <- (insert_delete_eq pc p (counter_incr m c)).
    rewrite total_observations_insert by apply lookup_delete_eq.
    rewrite <- (insert_delete_id pc p c Hp) at 2.
    rewrite total_observations_insert by apply lookup_delete_eq.
    rewrite sum_values_counter_incr. lia.
  - rewrite total_observations_insert by done.
    rewrite sum_values_counter_incr, sum_values_empty. lia.
Qed.

Lemma total_observations_fold movements (indices : list nat) pc :
  total_observations
    (fold_left (fun pc i => record_transition pc (pattern_before movements i)
                                              (sym_at movements i))
               indices pc) =
  total_observations pc + length indices.
Proof.
  revert pc. induction indices as [|i indices IH]; intros pc; simpl; [lia|].
  rewrite IH, total_observations_record_transition. lia.
Qed.

Lemma total_observations_count_patterns movements :
  total_observations (count_patterns movements) = length movements - 3.
Proof.
  unfold count_patterns. rewrite total_observations_fold.
  rewrite total_observations_empty. unfold range. by rewrite length_seq.
Qed.

Lemma size_le_total_observations pc :
  well_counted pc -> size pc <= total_observations pc.
Proof.
  induction pc as [|p c pc Hp IH] using map_ind; intros Hwf.
  - rewrite map_size_empty. lia.
  - rewrite map_size_insert_None, total_observations_insert by done.
    assert (Hc : 0 < sum_values c).
    { destruct (Hwf p c (lookup_insert_eq _ _ _)) as [Hne Hpos].
      by apply sum_values_pos. }
    assert (Hrest : well_counted pc).
    { intros p' c' Hp'. apply (Hwf p' c').
      rewrite lookup_insert_ne; [done|]. intros ->. congruence. }
    specialize (IH Hrest). lia.
Qed.

(** X3: after the counting loop, the count stored for a pattern and an
    outcome is the number of loop positions that show this pattern followed
    by this outcome; the pattern has a counter exactly when it was observed,
    and the outcome is a key of that counter exactly when its count is not
    zero. *)
Theorem pattern_counts_count_occurrences (movements : list Movement)
    (pattern : Pattern) (move : Movement) :
  let occurrences :=
    length (filter (fun i => pattern_before movements i = pattern /\
                             sym_at movements i = move)
                   (range 3 (length movements))) in
  recorded (count_patterns movements) pattern move = occurrences /\
  (count_patterns movements !! pattern = None <->
     observed_at movements pattern = []) /\
  (forall counter,
     count_patterns movements !! pattern = Some counter ->
     counter !! move = if occurrences =? 0 then None else Some occurrences).
Proof.
  intros occurrences.
  pose proof (recorded_count_patterns movements pattern move) as Hrec.
  fold occurrences in Hrec.
  split; [exact Hrec|]. split.
  - rewrite eq_None_not_Some, count_patterns_is_Some, <- observed_at_nonempty.
    destruct (observed_at movements pattern) as [|i l]; split; try done.
    + intros _ H. by apply H.
    + intros H. exfalso. by apply H.
  - intros c Hc. rewrite (recorded_Some _ _ _ _ Hc) in Hrec.
    destruct (well_counted_count_patterns movements pattern c Hc) as [_ Hpos].
    destruct (c !! move) as [n|] eqn:Hm; simpl in Hrec.
    + apply Hpos in Hm. rewrite <- Hrec.
      destruct (n =? 0) eqn:H0; [apply Nat.eqb_eq in H0; lia|done].
    + by rewrite <- Hrec.
Qed.

(** X4: the counts of the whole table add up to the number of loop
    iterations, the movement count minus 3; a successful training run on N
    candles therefore holds N-4 observations. *)
Theorem total_observations_is_window_count (df : list Candle) tr :
  train df = inr tr ->
  total_observations (pattern_counts tr) = length df - 4 /\
  total_observations (pattern_counts tr) =
    length (encode_movements (Close <$> df)) - 3.
Proof.
  intros Htr. apply train_inr in Htr as (Hb & _).
  apply build_markov_model_Some in Hb as (_ & -> & _).
  rewrite total_observations_count_patterns, length_encode_movements,
    length_fmap.
  split; lia.
Qed.

Lemma total_observations_is_window_count_witness :
  let tr := mkTraining
              (normalise (count_patterns (encode_movements (Close <$> example_table))))
              (count_patterns (encode_movements (Close <$> example_table)))
              4 (int_div 7 4) in
  total_observations (pattern_counts tr) = length example_table - 4 /\
  total_observations (pattern_counts tr) =
    length (encode_movements (Close <$> example_table)) - 3.
Proof.
  intros tr.
  apply (total_observations_is_window_count example_table tr).
  vm_compute. reflexivity.
Defined.

(** Splitting the observations of a pattern by their outcome. *)
Lemma observed_by_outcome (movements : list Movement) (p : Pattern)
    (indices : list nat) :
  length (filter (fun i => pattern_before movements i = p) indices) =
  length (filter (fun i => pattern_before movements i = p /\
                           sym_at movements i = UP) indices) +
  length (filter (fun i => pattern_before movements i = p /\
                           sym_at movements i = DOWN) indices) +
  length (filter (fun i => pattern_before movements i = p /\
                           sym_at movements i = FLAT) indices).
Proof.
  induction indices as [|i indices IH]; [reflexivity|].
  rewrite !filter_cons.
  destruct (decide (pattern_before movements i = p)) as [Hp|Hp].
  - destruct (sym_at movements i) eqn:Hs.
    + rewrite decide_True, !decide_False by (intuition congruence).
      simpl. lia.
    + rewrite decide_False, decide_True, decide_False by (intuition congruence).
      simpl. lia.
    + rewrite !decide_False, decide_True by (intuition congruence).
      simpl. lia.
  - rewrite !decide_False by tauto. exact IH.
Qed.

Lemma sum_values_observed (movements : list Movement) (p : Pattern) c :
  count_patterns movements !! p = Some c ->
  sum_values c = length (observed_at movements p).
Proof.
  intros Hc. rewrite sum_values_three. unfold observed_at.
  rewrite observed_by_outcome, <- !recorded_count_patterns.
  by rewrite !(recorded_Some _ _ _ _ Hc).
Qed.

Lemma int_div_bounds (n total : nat) :
  0 < n <= total -> (0 < int_div n total <= 1)%Q.
Proof.
  intros [Hn Hle].
  assert (Hqn : (0 < inject_Z (Z.of_nat n))%Q) by (by apply inject_nat_pos).
  assert (Hqt : (0 < inject_Z (Z.of_nat total))%Q) by (apply inject_nat_pos; lia).
  assert (Hqle : (inject_Z (Z.of_nat n) <= inject_Z (Z.of_nat total))%Q)
    by (rewrite <- Zle_Qle; lia).
  unfold int_div. split.
  - apply Qlt_shift_div_l; [done|]. lra.
  - apply Qle_shift_div_r; [done|]. lra.
Qed.

Lemma int_div_ge_1 (n total : nat) :
  0 < total <= n -> (1 <= int_div n total)%Q.
Proof.
  intros [Ht Hle].
  assert (Hqt : (0 < inject_Z (Z.of_nat total))%Q) by (by apply inject_nat_pos).
  assert (Hqle : (inject_Z (Z.of_nat total) <= inject_Z (Z.of_nat n))%Q)
    by (rewrite <- Zle_Qle; lia).
  unfold int_div. apply Qle_shift_div_l; [done|]. lra.
Qed.

(** X5: every probability stored in the trained model is the relative
    frequency of its outcome: the number of times the outcome followed the
    pattern divided by the number of times the pattern was observed with an
    outcome.  It is strictly positive and at most 1. *)
Theorem stored_probability_is_relative_frequency (closes : list Q) tm pc
    (pattern : Pattern) probs (move : Movement) (q : Q) :
  build_markov_model closes = Some (tm, pc) ->
  tm !! pattern = Some probs ->
  probs !! move = Some q ->
  let movements := encode_movements closes in
  let followed :=
    length (filter (fun i => pattern_before movements i = pattern /\
                             sym_at movements i = move)
                   (range 3 (length movements))) in
  let observed := length (observed_at movements pattern) in
  0 < followed <= observed /\
  q = int_div followed observed /\
  (0 < q <= 1)%Q.
Proof.
  intros Hb Hp Hq movements followed observed.
  destruct (trained_counter _ _ _ _ _ Hb Hp) as (c & Hc & -> & Hpos).
  apply build_markov_model_Some in Hb as (_ & -> & _).
  fold movements in Hc.
  unfold to_distribution in Hq. rewrite lookup_fmap in Hq.
  destruct (c !! move) as [n|] eqn:Hm; [|discriminate].
  injection Hq as <-.
  assert (Hn : n = followed).
  { unfold followed. rewrite <- recorded_count_patterns.
    by rewrite (recorded_Some _ _ _ _ Hc), Hm. }
  assert (Htotal : sum_values c = observed) by (by apply sum_values_observed).
  assert (Hbound : 0 < followed <= observed).
  { destruct (well_counted_count_patterns movements pattern c Hc) as [_ Hpos'].
    split; [rewrite <- Hn; by eapply Hpos'|].
    unfold followed, observed, observed_at.
    rewrite (observed_by_outcome movements pattern).
    destruct move; lia. }
  rewrite Hn, Htotal. split; [exact Hbound|]. split; [reflexivity|].
  by apply int_div_bounds.
Qed.

Lemma stored_probability_is_relative_frequency_witness :
  let closes := [1; 2; 3; 2; 3; 4; 3; 4; 5; 6]%Q in
  let movements := encode_movements closes in
  let followed :=
    length (filter (fun i => pattern_before movements i = (DOWN, UP, UP) /\
                             sym_at movements i = UP)
                   (range 3 (length movements))) in
  let observed := length (observed_at movements (DOWN, UP, UP)) in
  0 < followed <= observed /\
  int_div 1 2 = int_div followed observed /\
  (0 < int_div 1 2 <= 1)%Q.
Proof.
  intros closes.
  apply (stored_probability_is_relative_frequency closes
           (normalise (count_patterns (encode_movements closes)))
           (count_patterns (encode_movements closes))
           (DOWN, UP, UP) {[UP := int_div 1 2; DOWN := int_div 1 2]} UP).
  - reflexivity.
  - vm_compute. reflexivity.
  - vm_compute. reflexivity.
Defined.

Lemma train_average df tr :
  train df = inr tr ->
  avg_frequency tr =
    if 0 <? unique_patterns tr
    then int_div (total_observations (pattern_counts tr)) (unique_patterns tr)
    else 0%Q.
Proof.
  unfold train.
  destruct (build_markov_model (Close <$> df)) as [[tm pc]|]; [|discriminate].
  by intros [= <-].
Qed.

(** X6: the number of unique patterns of a trained model is the number of
    keys of the count table and never exceeds the N-4 observations; when the
    model is not empty the reported average pattern frequency is (N-4)
    divided by that number, hence at least 1. *)
Theorem unique_patterns_and_average (df : list Candle) tr :
  train df = inr tr ->
  unique_patterns tr = size (pattern_counts tr) /\
  unique_patterns tr <= length df - 4 /\
  (0 < unique_patterns tr ->
   avg_frequency tr = int_div (length df - 4) (unique_patterns tr) /\
   (1 <= avg_frequency tr)%Q).
Proof.
  intros Htr.
  pose proof (train_average _ _ Htr) as Havg.
  pose proof (total_observations_count_patterns
                (encode_movements (Close <$> df))) as Htotal.
  rewrite length_encode_movements, length_fmap in Htotal.
  apply train_inr in Htr as (Hb & Hsize & _).
  apply build_markov_model_Some in Hb as (_ & Hpc & Htm).
  rewrite <- Hpc in Htotal.
  assert (Hu : unique_patterns tr = size (pattern_counts tr)).
  { rewrite Hsize, Htm. apply map_size_fmap. }
  assert (Hle : unique_patterns tr <= length df - 4).
  { rewrite Hu. replace (length df - 4) with (length df - 1 - 3) by lia.
    rewrite <- Htotal. apply size_le_total_observations.
    rewrite Hpc. apply well_counted_count_patterns. }
  split; [exact Hu|]. split; [exact Hle|].
  intros Hpos. rewrite Havg.
  destruct (0 <? unique_patterns tr) eqn:H0; [|apply Nat.ltb_ge in H0; lia].
  rewrite Htotal. replace (length df - 1 - 3) with (length df - 4) by lia.
  split; [reflexivity|]. apply int_div_ge_1. lia.
Qed.

Lemma unique_patterns_and_average_witness :
  let tr := mkTraining
              (normalise (count_patterns (encode_movements (Close <$> example_table))))
              (count_patterns (encode_movements (Close <$> example_table)))
              4 (int_div 7 4) in
  unique_patterns tr = size (pattern_counts tr) /\
  unique_patterns tr <= length example_table - 4 /\
  (0 < unique_patterns tr ->
   avg_frequency tr = int_div (length example_table - 4) (unique_patterns tr) /\
   (1 <= avg_frequency tr)%Q).
Proof.
  intros tr.
  apply (unique_patterns_and_average example_table tr).
  vm_compute. reflexivity.
Defined.

(** ** How the predictor ends *)

Lemma inject_nat_zero (n : nat) : (inject_Z (Z.of_nat n) == 0)%Q -> n = 0.
Proof.
  intros H. destruct n as [|n]; [done|].
  pose proof (inject_nat_pos (S n) ltac:(lia)) as Hpos.
  rewrite H in Hpos. by apply Qlt_irrefl in Hpos.
Qed.

(** Every way [predict] can end, with the condition that leads there. *)
Lemma predict_outcome tr previous_day (prev_day_df : list Candle) :
  let patterns_found := find_patterns (day_movements (Close <$> prev_day_df)) in
  let totals := match_patterns (transition_matrix tr) patterns_found in
  match predict tr previous_day prev_day_df with
  | inl InsufficientIntradayData => length prev_day_df < 10
  | inl NoMatchingPatterns =>
      10 <= length prev_day_df /\ matched_patterns totals = 0
  | inl ZeroDivisionError =>
      10 <= length prev_day_df /\ 1 <= matched_patterns totals /\
      ((total_up totals + total_down totals + total_flat totals == 0)%Q \/
       length patterns_found = 0)
  | inl _ => False
  | inr r =>
      10 <= length prev_day_df /\ 1 <= matched_patterns totals /\
      reports tr previous_day prev_day_df r
  end.
Proof.
  intros patterns_found totals. unfold predict.
  destruct (length prev_day_df <? 10) eqn:H10;
    [by apply Nat.ltb_lt in H10|apply Nat.ltb_ge in H10].
  fold patterns_found totals.
  destruct (confidences totals) as [e|conf] eqn:Hconf.
  - unfold confidences in Hconf.
    destruct (matched_patterns totals =? 0) eqn:H0.
    + apply Nat.eqb_eq in H0. injection Hconf as <-. simpl. auto.
    + apply Nat.eqb_neq in H0. unfold py_div in Hconf.
      destruct (Qeq_bool _ 0) eqn:Hz; [|discriminate].
      apply Qeq_bool_iff in Hz. injection Hconf as <-. simpl.
      repeat split; [done|lia|by left].
  - assert (Hm : 1 <= matched_patterns totals).
    { unfold confidences in Hconf.
      destruct (matched_patterns totals =? 0) eqn:H0; [discriminate|].
      apply Nat.eqb_neq in H0. lia. }
    simpl.
    destruct (classify conf) as [prediction confidence] eqn:Hclass.
    destruct (volatility prev_day_df) as [atr vol] eqn:Hvol.
    destruct (match_quality (matched_patterns totals) (length patterns_found))
      as [e|quality] eqn:Hq; simpl.
    + unfold match_quality, py_div in Hq.
      destruct (Qeq_bool _ 0) eqn:Hz; [|discriminate].
      apply Qeq_bool_iff, inject_nat_zero in Hz. injection Hq as <-.
      repeat split; [done|done|by right].
    + repeat split; done.
Qed.

(** X7: the predictor stops with the insufficient-data error exactly when
    the selected day has fewer than 10 candles: 9 are rejected, 10 go on. *)
Theorem insufficient_data_iff_under_ten (tr : Training) (previous_day : Z)
    (prev_day_df : list Candle) :
  predict tr previous_day prev_day_df = inl InsufficientIntradayData <->
  length prev_day_df < 10.
Proof.
  pose proof (predict_outcome tr previous_day prev_day_df) as Hout.
  cbv zeta in Hout. split.
  - intros Hp. by rewrite Hp in Hout.
  - intros Hlt. unfold predict.
    by rewrite (proj2 (Nat.ltb_lt _ _) Hlt).
Qed.

(** X8: the predictor stops with the no-matching-patterns error exactly
    when the day has at least 10 candles and none of its patterns is a key
    of the transition model. *)
Theorem no_match_iff_all_patterns_absent (tr : Training) (previous_day : Z)
    (prev_day_df : list Candle) :
  predict tr previous_day prev_day_df = inl NoMatchingPatterns <->
  10 <= length prev_day_df /\
  forall p, p ∈ find_patterns (day_movements (Close <$> prev_day_df)) ->
            transition_matrix tr !! p = None.
Proof.
  pose proof (predict_outcome tr previous_day prev_day_df) as Hout.
  cbv zeta in Hout. rewrite matched_patterns_count in Hout.
  set (pf := find_patterns (day_movements (Close <$> prev_day_df))) in *.
  assert (Hnone : length (filter (fun p => is_Some (transition_matrix tr !! p)) pf)
                  = 0 <->
                  forall p, p ∈ pf -> transition_matrix tr !! p = None).
  { rewrite length_zero_iff_nil. split.
    - intros Hnil p Hp. apply eq_None_not_Some. intros Hs.
      exact (filter_nil_not_elem_of _ _ _ Hnil Hs Hp).
    - intros Hall. destruct (filter _ pf) as [|p l] eqn:Hf; [done|].
      assert (Hin : p ∈ filter (fun p => is_Some (transition_matrix tr !! p)) pf)
        by (rewrite Hf; left).
      apply list_elem_of_filter in Hin as [[? Hs] Hin].
      rewrite (Hall p Hin) in Hs. discriminate. }
  split.
  - intros Hp. rewrite Hp in Hout. destruct Hout as [Hlen H0].
    split; [done|]. by apply Hnone.
  - intros [Hlen Hall]. apply Hnone in Hall.
    destruct (predict tr previous_day prev_day_df) as [[]|r];
      try done; try lia; destruct Hout; lia.
Qed.

(** ** How a run ends *)

Lemma train_error df e : train df = inl e -> e = ModelTrainingFailed.
Proof.
  unfold train.
  destruct (build_markov_model (Close <$> df)) as [[tm pc]|]; [discriminate|].
  by intros [= <-].
Qed.

Lemma train_succeeds df :
  4 <= length df ->
  exists tr,
    train df = inr tr /\
    transition_matrix tr =
      normalise (count_patterns (encode_movements (Close <$> df))).
Proof.
  intros Hlen. unfold train.
  destruct (build_markov_model (Close <$> df)) as [[tm pc]|] eqn:Hb.
  - apply build_markov_model_Some in Hb as (_ & -> & ->). eauto.
  - apply build_markov_model_None in Hb. rewrite length_fmap in Hb. lia.
Qed.

(** With a trained model no division of the predictor has a zero divisor. *)
Lemma predict_no_zero_division tr previous_day (prev_day_df : list Candle) :
  trained (transition_matrix tr) ->
  predict tr previous_day prev_day_df ≠ inl ZeroDivisionError.
Proof.
  intros Htm Hp.
  pose proof (predict_outcome tr previous_day prev_day_df) as Hout.
  cbv zeta in Hout. rewrite Hp in Hout.
  destruct Hout as (Hlen & Hm & [Hzero|Hnone]).
  - destruct (mass_balanced_match_patterns _
                (find_patterns (day_movements (Close <$> prev_day_df))) Htm)
      as (_ & _ & _ & Hsum).
    rewrite Hsum in Hzero. apply inject_nat_zero in Hzero. lia.
  - rewrite length_find_patterns, length_day_movements, length_fmap in Hnone.
    lia.
Qed.

(** X9: a run never ends in an uncaught exception: whatever the table and
    the date, [main] raises no division, index or value error, so every
    failure is one of its five reported exits.  The training check comes
    first: the run ends with the training error exactly when the table has
    fewer than 4 rows, whatever the date. *)
Theorem main_raises_no_exception (df : list Candle) (prediction_date : Z) :
  main df prediction_date ≠ inl ZeroDivisionError /\
  main df prediction_date ≠ inl ValueError /\
  main df prediction_date ≠ inl IndexError /\
  (main df prediction_date = inl ModelTrainingFailed <-> length df < 4).
Proof.
  unfold main.
  destruct (train df) as [e|tr] eqn:Htr; simpl.
  - pose proof (train_error _ _ Htr) as ->.
    repeat split; try done. intros _.
    destruct (le_lt_dec 4 (length df)) as [Hge|Hlt]; [|done].
    destruct (train_succeeds df Hge) as (tr & Htr' & _). congruence.
  - assert (Hlen : ~ length df < 4).
    { intros Hlt. rewrite <- (length_fmap Close) in Hlt.
      apply build_markov_model_None in Hlt.
      unfold train in Htr. by rewrite Hlt in Htr. }
    destruct (select_previous_day_cases (available_dates df) prediction_date
                (available_dates_sorted df))
      as [[_ Hsel]|[(_ & _ & Hsel)|(_ & p & i & Hsel & _)]];
      rewrite Hsel; simpl; try (repeat split; try done; tauto).
    pose proof (predict_no_zero_division tr p
                  (filter (fun c => TradingDay c = p) df)
                  (train_trained _ _ Htr)) as Hnz.
    pose proof (predict_outcome tr p (filter (fun c => TradingDay c = p) df))
      as Hout.
    cbv zeta in Hout.
    destruct (predict tr p (filter (fun c => TradingDay c = p) df))
      as [[]|r]; repeat split; try done; try tauto.
Qed.

Lemma matched_patterns_pos tm (patterns_found : list Pattern) (p : Pattern) :
  p ∈ patterns_found -> is_Some (tm !! p) ->
  1 <= matched_patterns (match_patterns tm patterns_found).
Proof.
  intros Hin Hs. rewrite matched_patterns_count.
  assert (Hf : p ∈ filter (fun p => is_Some (tm !! p)) patterns_found)
    by (by apply list_elem_of_filter).
  destruct (filter _ patterns_found); [by apply not_elem_of_nil in Hf|].
  simpl. lia.
Qed.

(** X10: a run reaches its report whenever every check passes: at least 4
    candles, a prediction date that is a trading day with an earlier trading
    day before it, at least 10 candles on the latest earlier trading day,
    and at least one pattern of that day stored in the model.  The report is
    then computed from that day. *)
Theorem main_reports_when_all_checks_pass (df : list Candle)
    (prediction_date previous_day : Z) :
  4 <= length df ->
  prediction_date ∈ TradingDay <$> df ->
  previous_day ∈ TradingDay <$> df ->
  (previous_day < prediction_date)%Z ->
  (forall d, d ∈ TradingDay <$> df -> (d < prediction_date)%Z ->
             (d <= previous_day)%Z) ->
  let prev_day_df := filter (fun c => TradingDay c = previous_day) df in
  10 <= length prev_day_df ->
  (exists p,
     p ∈ find_patterns (day_movements (Close <$> prev_day_df)) /\
     is_Some (normalise (count_patterns (encode_movements (Close <$> df))) !! p)) ->
  exists tr r,
    train df = inr tr /\
    main df prediction_date = inr r /\
    reports tr previous_day prev_day_df r.
Proof.
  intros Hlen Hd Hp Hlt Hmax prev_day_df Hday (pat & Hpat & Hstored).
  destruct (train_succeeds df Hlen) as (tr & Htr & Htm).
  exists tr. unfold main. rewrite Htr. simpl.
  destruct (select_previous_day_cases (available_dates df) prediction_date
              (available_dates_sorted df))
    as [[Hnin _]|[(_ & Hmin & _)|(_ & p & i & Hsel & Hpi & _ & Hplt & Hpmax)]].
  - exfalso. by apply Hnin, elem_of_available_dates.
  - apply elem_of_available_dates in Hp. apply Hmin in Hp. lia.
  - assert (p = previous_day) as ->.
    { assert (Hpin : p ∈ TradingDay <$> df).
      { apply elem_of_available_dates. by eapply list_elem_of_lookup_2. }
      apply elem_of_available_dates in Hp.
      pose proof (Hpmax previous_day Hp Hlt).
      pose proof (Hmax p Hpin Hplt). lia. }
    rewrite Hsel. simpl. fold prev_day_df.
    rewrite <- Htm in Hstored.
    pose proof (matched_patterns_pos _ _ _ Hpat Hstored) as Hm.
    destruct (predict_reports tr previous_day prev_day_df
                (train_trained _ _ Htr) Hday Hm) as (r & Hr & _).
    exists r. split; [done|]. split; [exact Hr|].
    pose proof (predict_outcome tr previous_day prev_day_df) as Hout.
    cbv zeta in Hout. rewrite Hr in Hout. apply Hout.
Qed.

Lemma main_reports_when_all_checks_pass_witness :
  let prev_day_df := filter (fun c => TradingDay c = 1%Z) example_table in
  exists tr r,
    train example_table = inr tr /\
    main example_table 2 = inr r /\
    reports tr 1 prev_day_df r.
Proof.
  apply (main_reports_when_all_checks_pass example_table 2 1).
  - vm_compute. lia.
  - compute_done.
  - compute_done.
  - lia.
  - intros d Hd Hlt. lia.
  - vm_compute. lia.
  - exists (UP, UP, DOWN). split; [compute_done|]. vm_compute. eauto.
Defined.

(** ** What a report guarantees *)

Lemma main_inr df prediction_date r :
  main df prediction_date = inr r ->
  exists tr previous_day,
    train df = inr tr /\
    select_previous_day (available_dates df) prediction_date = inr previous_day /\
    predict tr previous_day (filter (fun c => TradingDay c = previous_day) df)
      = inr r.
Proof.
  unfold main.
  destruct (train df) as [e|tr]; simpl; [discriminate|].
  destruct (select_previous_day _ _) as [e|p]; simpl; [discriminate|].
  eauto.
Qed.

Lemma classify_confidence_is_max (c : Confidence) :
  (snd (classify c) ==
   py_max3 (confidence_up c) (confidence_down c) (confidence_flat c))%Q.
Proof.
  unfold classify.
  set (mx := py_max3 _ _ _).
  pose proof (py_max3_cases (confidence_up c) (confidence_down c)
                (confidence_flat c)) as Hcases.
  fold mx in Hcases.
  destruct (Qeq_bool mx (confidence_up c)) eqn:Hup; simpl.
  - apply Qeq_bool_iff in Hup. by symmetry.
  - apply Qeq_bool_false in Hup.
    destruct (Qeq_bool mx (confidence_down c)) eqn:Hdown; simpl.
    + apply Qeq_bool_iff in Hdown. by symmetry.
    + apply Qeq_bool_false in Hdown.
      destruct Hcases as [H|[H|H]]; rewrite H in *;
        try (exfalso; apply Hup; reflexivity);
        try (exfalso; apply Hdown; reflexivity).
      reflexivity.
Qed.

Lemma percentage_bounds (part total : Q) :
  (0 <= part <= total -> 0 < total -> 0 <= part / total * 100 <= 100)%Q.
Proof.
  intros [H0 Hle] Hpos.
  assert (H1 : (0 <= part / total)%Q) by (apply Qle_shift_div_l; [done|lra]).
  assert (H2 : (part / total <= 1)%Q) by (apply Qle_shift_div_r; [done|lra]).
  split; lra.
Qed.

Lemma confidences_bounds (t : Totals) (c : Confidence) :
  mass_balanced t -> confidences t = inr c ->
  (0 <= confidence_up c <= 100 /\ 0 <= confidence_down c <= 100 /\
   0 <= confidence_flat c <= 100 /\
   confidence_up c + confidence_down c + confidence_flat c == 100)%Q.
Proof.
  intros Hbal Hc.
  assert (Hm : 1 <= matched_patterns t).
  { unfold confidences in Hc.
    destruct (matched_patterns t =? 0) eqn:H0; [discriminate|].
    apply Nat.eqb_neq in H0. lia. }
  destruct (confidences_balanced t Hbal Hm) as [Hpos Hconf].
  rewrite Hconf in Hc. injection Hc as <-. simpl.
  destruct Hbal as (Hu & Hd & Hf & _).
  split; [apply percentage_bounds; [split|]; lra|].
  split; [apply percentage_bounds; [split|]; lra|].
  split; [apply percentage_bounds; [split|]; lra|].
  field. intros H0. rewrite H0 in Hpos. by apply Qlt_irrefl in Hpos.
Qed.

Lemma consecutive_run_bounds (movement : list Movement) :
  1 <= consecutive_run (tail5 movement) <= 5.
Proof.
  unfold consecutive_run.
  pose proof (momentum_loop_bounds (tail5 movement)
                (rev (range 1 (length (tail5 movement)))) 1) as Hb.
  rewrite length_rev in Hb. unfold range in Hb |- *.
  rewrite length_seq in Hb.
  pose proof (length_tail5 movement). lia.
Qed.

(** X11: every report of a run is based on a trading day strictly before
    the prediction date; its three confidence percentages lie between 0 and
    100 and add up to 100; the reported confidence is their maximum, between
    100/3 and 100; and the strength score lies between 0 and 100. *)
Theorem report_confidence_invariants (df : list Candle) (prediction_date : Z)
    (r : Report) :
  main df prediction_date = inr r ->
  let conf := rep_confidences r in
  (rep_previous_day r < prediction_date)%Z /\
  rep_previous_day r ∈ TradingDay <$> df /\
  train df = inr (rep_training r) /\
  (0 <= confidence_up conf <= 100 /\ 0 <= confidence_down conf <= 100 /\
   0 <= confidence_flat conf <= 100 /\
   confidence_up conf + confidence_down conf + confidence_flat conf == 100)%Q /\
  (rep_confidence r ==
     py_max3 (confidence_up conf) (confidence_down conf) (confidence_flat conf))%Q /\
  (100 # 3 <= rep_confidence r <= 100)%Q /\
  (0 <= rep_strength_score r <= 100)%Q.
Proof.
  intros Hmain conf.
  destruct (main_inr _ _ _ Hmain) as (tr & p & Htr & Hsel & Hpred).
  pose proof (predict_outcome tr p (filter (fun c => TradingDay c = p) df))
    as Hout.
  cbv zeta in Hout. rewrite Hpred in Hout.
  destruct Hout as (_ & _ & Hrep). unfold reports in Hrep. cbv zeta in Hrep.
  destruct Hrep as (Hprev & Htrain & Hconf & Hclass & Hscore & _).
  fold conf in Hconf, Hclass, Hscore.
  assert (Hdate : (p < prediction_date)%Z /\ p ∈ TradingDay <$> df).
  { destruct (select_previous_day_cases (available_dates df) prediction_date
                (available_dates_sorted df))
      as [[_ Hs]|[(_ & _ & Hs)|(_ & p' & i & Hs & Hpi & _ & Hlt & _)]];
      rewrite Hs in Hsel; try discriminate.
    injection Hsel as ->. split; [done|].
    apply elem_of_available_dates. by eapply list_elem_of_lookup_2. }
  rewrite Hprev, Htrain.
  pose proof (confidences_bounds _ _
                (mass_balanced_match_patterns _ _ (train_trained _ _ Htr)) Hconf)
    as Hb.
  assert (Hmax : (rep_confidence r ==
            py_max3 (confidence_up conf) (confidence_down conf)
                    (confidence_flat conf))%Q).
  { change (rep_confidence r) with (snd (rep_prediction r, rep_confidence r)).
    rewrite Hclass. apply classify_confidence_is_max. }
  pose proof (py_max3_ge (confidence_up conf) (confidence_down conf)
                (confidence_flat conf)) as Hge.
  pose proof (py_max3_cases (confidence_up conf) (confidence_down conf)
                (confidence_flat conf)) as Hcases.
  destruct Hb as (Hu & Hd & Hf & Hsum).
  assert (Hrange : (100 # 3 <= py_max3 (confidence_up conf)
                      (confidence_down conf) (confidence_flat conf) <= 100)%Q).
  { split; [by apply py_max3_third|].
    destruct Hcases as [H|[H|H]]; rewrite H; lra. }
  split; [apply Hdate|]. split; [apply Hdate|]. split; [exact Htr|].
  split; [by repeat split; try apply Hu; try apply Hd; try apply Hf|].
  split; [exact Hmax|].
  split; [rewrite Hmax; exact Hrange|].
  rewrite Hscore. unfold strength_score, Qdiv.
  change (/ 66.67)%Q with (100 # 6667)%Q.
  destruct Hrange. split; lra.
Qed.

Lemma report_confidence_invariants_witness :
  exists r,
    main example_table 2 = inr r /\
    let conf := rep_confidences r in
    (rep_previous_day r < 2)%Z /\
    rep_previous_day r ∈ TradingDay <$> example_table /\
    train example_table = inr (rep_training r) /\
    (0 <= confidence_up conf <= 100 /\ 0 <= confidence_down conf <= 100 /\
     0 <= confidence_flat conf <= 100 /\
     confidence_up conf + confidence_down conf + confidence_flat conf == 100)%Q /\
    (rep_confidence r ==
       py_max3 (confidence_up conf) (confidence_down conf)
               (confidence_flat conf))%Q /\
    (100 # 3 <= rep_confidence r <= 100)%Q /\
    (0 <= rep_strength_score r <= 100)%Q.
Proof.
  eexists. split; [reflexivity|].
  apply (report_confidence_invariants example_table 2). reflexivity.
Defined.
